(** * EC2 patching notifications: target counts, patch status, session reuse

    A shallow embedding of the core of [combined_pre_post_patching.py]
    (the bodies of [get_target_count] and [get_patch_status_counts] are
    repeated verbatim in [pre_patch_notification.py] and
    [post_patch_notification.py]).

    The AWS clients are records of functions that answer a request with a
    value or with a raised exception; a paginator answers with a list of
    page results that is consumed until the first one that raises.  Python
    code runs in a writer/exception monad [M]: the trace records every log
    record and every request sent to AWS, in program order. *)

From stdpp Require Import base list strings gmap.
From Stdlib Require Import ZArith Lia.

Local Open Scope Z_scope.
Local Open Scope nat_scope.
Set Warnings "-register-all,-clear-no-such-hyp".

(** ** Exceptions, events and the monad *)

(** Subclasses of Python's [Exception] that the code can meet. *)
Inductive exn : Type :=
  | UnboundLocalError (name : string)
  | TypeError (msg : string)
  | AttributeError (msg : string)
  | IndexError
  | KeyError (key : string)
  | ValueError (msg : string)
  | ClientError (msg : string).

Inductive level : Type := DEBUG | INFO | WARNING | ERROR | CRITICAL.

(** The [Filters] entries handed to [describe_instances]. *)
Record ec2_filter : Type := mk_filter {
  filter_Name : string;
  filter_Values : list string
}.

(** Log records carry the fixed text of the message (the interpolated
    values are left out); requests carry their arguments. *)
Inductive event : Type :=
  | Log (lvl : level) (msg : string)
  | Print (msg : string)
  | StsAssumeRole (role_arn : string) (session_name : string)
  | SsmDescribeMaintenanceWindows
  | SsmDescribeMaintenanceWindowTargets (window_id : string)
  | Ec2DescribeInstances (filters : list ec2_filter)
  | RgListGroupResources (group : string)
  | SsmDescribeMaintenanceWindowExecutions (window_id : string) (max_results : nat)
  | SsmDescribeMaintenanceWindowExecutionTasks (execution_id : string)
  | SsmDescribeMaintenanceWindowExecutionTaskInvocations
      (execution_id : string) (task_id : option string)
  | SsmListCommandInvocations (command_id : string)
  | ReadLocalCsv (file_name : string)
  | S3GetObject (bucket key : string)
  | S3PutObject (bucket key : string)
  | SesSendEmail (subject : string).

(** What a request answers: a value or a raised exception. *)
Definition result (A : Type) : Type := exn + A.

(** How a piece of Python code ends: normally, by an exception, or by
    [sys.exit] ([SystemExit] is not an [Exception], so [except Exception]
    lets it through). *)
Inductive outcome (A : Type) : Type :=
  | Ok (a : A)
  | Raise (e : exn)
  | Exit (code : Z).
Arguments Ok {A} a.
Arguments Raise {A} e.
Arguments Exit {A} code.

Definition M (A : Type) : Type := list event * outcome A.

Definition ret {A} (a : A) : M A := ([], Ok a).

Definition bind {A B} (m : M A) (k : A -> M B) : M B :=
  match m with
  | (t, Ok a) => let '(t', r) := k a in (t ++ t', r)
  | (t, Raise e) => (t, Raise e)
  | (t, Exit c) => (t, Exit c)
  end.

Declare Scope py_scope.
Delimit Scope py_scope with py.
Notation "x <- m ;; k" := (bind m (fun x => k))
  (at level 100, m at next level, right associativity) : py_scope.
Notation "m ;; k" := (bind m (fun _ => k))
  (at level 100, right associativity) : py_scope.
Local Open Scope py_scope.

Definition emit (e : event) : M unit := ([e], Ok tt).
Definition log (lvl : level) (msg : string) : M unit := emit (Log lvl msg).
Definition raise {A} (e : exn) : M A := ([], Raise e).
Definition sys_exit {A} (code : Z) : M A := ([], Exit code).

(** A request: recorded in the trace, then answered. *)
Definition request {A} (e : event) (r : result A) : M A :=
  match r with
  | inr a => ([e], Ok a)
  | inl x => ([e], Raise x)
  end.

(** [try: m  except Exception: h]. *)
Definition try_except {A} (m : M A) (h : exn -> M A) : M A :=
  match m with
  | (t, Raise e) => let '(t', r) := h e in (t ++ t', r)
  | other => other
  end.

(** [for x in l: s = body(s, x)]. *)
Fixpoint for_each {S A} (body : S -> A -> M S) (l : list A) (s : S) : M S :=
  match l with
  | [] => ret s
  | x :: l' => s' <- body s x ;; for_each body l' s'
  end.

(** [for page in paginator.paginate(...)]: the pages are fetched one by one
    and a fetch that raises ends the loop with that exception. *)
Fixpoint for_pages {S P} (body : S -> P -> M S) (pages : list (result P)) (s : S)
  : M S :=
  match pages with
  | [] => ret s
  | inr p :: rest => s' <- body s p ;; for_pages body rest s'
  | inl e :: _ => raise e
  end.

(** ** Python string operations *)

(** [s.split(sep)] for a non-empty [sep]: [skip] characters of a separator
    just matched are still to be passed over, [cur] is the piece read so
    far. *)
Fixpoint split_go (sep s : string) (skip : nat) (cur : string) : list string :=
  match s with
  | EmptyString => [cur]
  | String c s' =>
      match skip with
      | S k => split_go sep s' k cur
      | O =>
          if String.prefix sep s
          then cur :: split_go sep s' (String.length sep - 1) ""
          else split_go sep s' 0 (cur +:+ String c "")
      end
  end.

Definition str_split (sep s : string) : list string := split_go sep s 0 "".

(** [needle in s] on strings. *)
Fixpoint str_contains (needle s : string) : bool :=
  String.prefix needle s ||
  match s with
  | EmptyString => false
  | String _ s' => str_contains needle s'
  end.

(** ** The AWS responses read by the target resolver *)

Record rule : Type := mk_rule {
  rule_Key : string;
  rule_Values : list string
}.

(** One entry of [targets_response["Targets"]]; its own ["Targets"] is read
    with [.get("Targets", [])]. *)
Record mw_target : Type := mk_mw_target {
  mw_Targets : option (list rule)
}.

Record instance : Type := mk_instance { InstanceId : string }.
Record reservation : Type := mk_reservation { Instances : list instance }.
Record ec2_page : Type := mk_ec2_page { Reservations : list reservation }.

Record resource_identifier : Type := mk_resource {
  ResourceArn : string;
  ResourceType : string
}.
Record rg_page : Type := mk_rg_page {
  ResourceIdentifiers : list resource_identifier
}.

Record ec2_client : Type := mk_ec2 {
  describe_instances_pages : list ec2_filter -> list (result ec2_page)
}.

Record rg_client : Type := mk_rg {
  list_group_resources_pages : string -> list (result rg_page)
}.

(** ** The AWS responses read by the status resolver and by the two loops *)

(** [NextExecutionTime] as [runs_today] accepts it: an ISO-8601 string or a
    [datetime].  A datetime is kept as microseconds, counted from the epoch
    when it is timezone-aware and read off the wall clock when it is naive. *)
Inductive time_value : Type :=
  | TimeStr (s : string)
  | TimeDatetime (aware : bool) (micros : Z).

Record maintenance_window : Type := mk_window {
  WindowId : string;
  window_Name : option string;
  NextExecutionTime : option time_value
}.

Record execution : Type := mk_execution {
  WindowExecutionId : string;
  StartTime : Z
}.

Record task : Type := mk_task {
  TaskArn : option string;
  TaskExecutionId : option string
}.

Record invocation : Type := mk_invocation {
  inv_Parameters : option string;
  inv_ExecutionId : option string
}.
Record invocation_page : Type := mk_invocation_page {
  WindowExecutionTaskInvocationIdentities : option (list invocation)
}.

Record command_invocation : Type := mk_command_invocation {
  cmd_InstanceId : option string;
  cmd_Status : option string
}.
Record command_page : Type := mk_command_page {
  CommandInvocations : option (list command_invocation)
}.

Record ssm_client : Type := mk_ssm {
  describe_maintenance_windows : result (list maintenance_window);
  describe_maintenance_window_targets : string -> result (list mw_target);
  describe_maintenance_window_executions :
    string -> nat -> result (option (list execution));
  describe_maintenance_window_execution_tasks :
    string -> result (option (list task));
  describe_maintenance_window_execution_task_invocations_pages :
    string -> option string -> list (result invocation_page);
  list_command_invocations_pages : string -> list (result command_page)
}.

(** ** [get_target_count] *)

(** The local variables of [get_target_count] that outlive one rule:
    [total], and [group_name], which is bound only by the [for] statement of
    the resource-group branch. *)
Record locals : Type := mk_locals {
  total : nat;
  group_name : option string
}.

(** Reading a local variable: [UnboundLocalError] while it is unbound. *)
Definition read_local (name : string) (v : option string) : M string :=
  match v with
  | Some x => ret x
  | None => raise (UnboundLocalError name)
  end.

(** [l[i]] on a list. *)
Definition index {A} (l : list A) (i : nat) : M A :=
  match l !! i with
  | Some x => ret x
  | None => raise IndexError
  end.

(** The inner loops of the resource-group branch: one member, one page. *)
Definition count_resource (count : nat) (resource : resource_identifier) : M nat :=
  if String.eqb (ResourceType resource) "AWS::EC2::Instance"
  then ret (count + 1)
  else ret count.

Definition count_resource_page (count : nat) (page : rg_page) : M nat :=
  for_each count_resource (ResourceIdentifiers page) count.

(** The body of [for group_name in values]. *)
Definition resolve_group (resourcegroups : rg_client) (lc : locals) (g : string)
  : M locals :=
  emit (RgListGroupResources g) ;;
  count <- for_pages count_resource_page
             (list_group_resources_pages resourcegroups g) 0 ;;
  log DEBUG "Resource Group resolved" ;;
  ret {| total := total lc + count; group_name := Some g |}.

(** The body of [for rule in mw_target.get("Targets", [])]; the state is the
    locals and the [tag_filters] of the MW target at hand. *)
Definition rule_step (resourcegroups : rg_client)
    (st : locals * list ec2_filter) (r : rule) : M (locals * list ec2_filter) :=
  let '(lc, tag_filters) := st in
  let key := rule_Key r in
  let values := rule_Values r in
  if String.eqb key "InstanceIds" then
    log DEBUG "InstanceIds target" ;;
    ret ({| total := total lc + length values; group_name := group_name lc |},
         tag_filters)
  else if String.prefix "tag:" key then
    tag_key <- index (str_split "tag:" key) 1 ;;
    ret (lc, tag_filters ++ [mk_filter ("tag:" +:+ tag_key) values])
  else if String.eqb key "resource-groups:Name" then
    (* the message interpolates group_name before the loop binds it *)
    _ <- read_local "group_name" (group_name lc) ;;
    log DEBUG "Resolving Resource Group" ;;
    lc' <- for_each (resolve_group resourcegroups) values lc ;;
    ret (lc', tag_filters)
  else
    log WARNING "Unsupported target rule" ;;
    emit (Print "Unsupported target rule") ;;
    ret (lc, tag_filters).

(** The loops that fill [instance_ids]. *)
Definition add_reservation (instance_ids : gset string) (r : reservation)
  : gset string :=
  foldl (fun ids i => ids ∪ {[ InstanceId i ]}) instance_ids (Instances r).

Definition add_ec2_page (instance_ids : gset string) (page : ec2_page)
  : M (gset string) :=
  ret (foldl add_reservation instance_ids (Reservations page)).

(** [if tag_filters: ...]. *)
Definition resolve_tags (ec2 : ec2_client) (lc : locals) (tag_filters : list ec2_filter)
  : M locals :=
  match tag_filters with
  | [] => ret lc
  | _ :: _ =>
      emit (Ec2DescribeInstances tag_filters) ;;
      instance_ids <- for_pages add_ec2_page
                        (describe_instances_pages ec2 tag_filters) ∅ ;;
      log DEBUG "Tag-based EC2 instances resolved" ;;
      ret {| total := total lc + size instance_ids; group_name := group_name lc |}
  end.

(** The body of [for mw_target in targets_response["Targets"]]. *)
Definition mw_target_step (ec2 : ec2_client) (resourcegroups : rg_client)
    (lc : locals) (t : mw_target) : M locals :=
  st <- for_each (rule_step resourcegroups) (default [] (mw_Targets t)) (lc, []) ;;
  resolve_tags ec2 (fst st) (snd st).

(** The [try] block. *)
Definition get_target_count_body (ssm : ssm_client) (ec2 : ec2_client)
    (resourcegroups : rg_client) (window_id : string) : M nat :=
  targets <- request (SsmDescribeMaintenanceWindowTargets window_id)
               (describe_maintenance_window_targets ssm window_id) ;;
  lc <- for_each (mw_target_step ec2 resourcegroups) targets
          {| total := 0; group_name := None |} ;;
  log INFO "Target count for MW" ;;
  ret (total lc).

Definition get_target_count (ssm : ssm_client) (ec2 : ec2_client)
    (resourcegroups : rg_client) (window_id : string) : M nat :=
  log INFO "Resolving target count for MW" ;;
  try_except (get_target_count_body ssm ec2 resourcegroups window_id)
    (fun _ => log ERROR "Failed resolving target count for MW" ;; ret 0).

(** ** [get_patch_status_counts] *)

(** What [json.loads] builds.  An object is kept as the items of the
    resulting [dict], whose keys are distinct. *)
Inductive json : Type :=
  | JNull
  | JBool (b : bool)
  | JNumber (n : Z)
  | JString (s : string)
  | JArray (items : list json)
  | JObject (members : list (string * json)).

Fixpoint dict_lookup (k : string) (members : list (string * json)) : option json :=
  match members with
  | [] => None
  | (k', v) :: rest => if String.eqb k k' then Some v else dict_lookup k rest
  end.

(** [v.get(k, dflt)]: only a [dict] has the method. *)
Definition py_get (v : json) (k : string) (dflt : json) : M json :=
  match v with
  | JObject members => ret (default dflt (dict_lookup k members))
  | _ => raise (AttributeError "object has no attribute 'get'")
  end.

Definition json_eq_str (needle : string) (v : json) : bool :=
  match v with
  | JString s => String.eqb s needle
  | _ => false
  end.

(** [needle in v] for a string [needle]: membership in a list, substring of
    a string, key of a dict; the other values are not iterable. *)
Definition py_in (needle : string) (v : json) : M bool :=
  match v with
  | JArray items => ret (existsb (json_eq_str needle) items)
  | JString s => ret (str_contains needle s)
  | JObject members => ret (existsb (fun kv => String.eqb (fst kv) needle) members)
  | _ => raise (TypeError "argument is not iterable")
  end.

Definition counts : Type := nat * nat.

Definition failure_statuses : list string :=
  ["Failed"; "TimedOut"; "Cancelled"; "ExecutionTimedOut"].

(** [executions.sort(key=lambda x: x["StartTime"], reverse=True)]: the sort
    is stable, also under [reverse=True], so it is the one stable sort by
    descending start time, written here by insertion. *)
Fixpoint insert_execution (x : execution) (l : list execution) : list execution :=
  match l with
  | [] => [x]
  | y :: l' =>
      if (StartTime x <? StartTime y)%Z then y :: insert_execution x l' else x :: l
  end.

Fixpoint sort_executions (l : list execution) : list execution :=
  match l with
  | [] => []
  | x :: l' => insert_execution x (sort_executions l')
  end.

Section StatusResolver.

(** [json.loads]; [None] stands for [json.JSONDecodeError]. *)
Variable json_loads : string -> option json.

(** The [operation] of one task invocation. *)
Definition read_operation (inv : invocation) : M json :=
  let raw_params := default "" (inv_Parameters inv) in
  if String.eqb raw_params "" then ret (JArray [])
  else
    match json_loads raw_params with
    | Some parsed =>
        parameters <- py_get parsed "parameters" (JObject []) ;;
        py_get parameters "Operation" (JArray [])
    | None =>
        log WARNING "Failed to parse Parameters JSON" ;;
        ret (JArray [])
    end.

(** The body of [for cmd_inv in cmd_page.get("CommandInvocations", [])]. *)
Definition tally_command_invocation (c : counts) (cmd_inv : command_invocation)
  : M counts :=
  log DEBUG "Instance command status" ;;
  match cmd_Status cmd_inv with
  | Some inst_status =>
      if String.eqb inst_status "Success" then ret (fst c + 1, snd c)
      else if existsb (String.eqb inst_status) failure_statuses
           then ret (fst c, snd c + 1)
           else ret c
  | None => ret c
  end.

Definition tally_command_page (c : counts) (cmd_page : command_page) : M counts :=
  for_each tally_command_invocation (default [] (CommandInvocations cmd_page)) c.

(** The body of [for inv in invocations]. *)
Definition invocation_step (ssm : ssm_client) (c : counts) (inv : invocation)
  : M counts :=
  operation <- read_operation inv ;;
  log DEBUG "operation detected" ;;
  has_install <- py_in "Install" operation ;;
  if negb has_install then
    log DEBUG "Skipping non-install operation" ;;
    ret c
  else
    match inv_ExecutionId inv with
    | Some ((String _ _) as command_id) =>
        log INFO "Evaluating Install command execution" ;;
        emit (SsmListCommandInvocations command_id) ;;
        for_pages tally_command_page
          (list_command_invocations_pages ssm command_id) c
    | _ =>
        log WARNING "No CommandId found for Install operation" ;;
        ret c
    end.

Definition invocation_page_step (ssm : ssm_client) (c : counts)
    (page : invocation_page) : M counts :=
  let invocations := default [] (WindowExecutionTaskInvocationIdentities page) in
  log DEBUG "Processing task invocations" ;;
  for_each (invocation_step ssm) invocations c.

(** The body of [for task in tasks]. *)
Definition task_step (ssm : ssm_client) (execution_id : string) (c : counts)
    (t : task) : M counts :=
  let task_arn := TaskArn t in
  let task_id := TaskExecutionId t in
  log DEBUG "Evaluating task" ;;
  if negb (bool_decide (task_arn = Some "AWS-RunPatchBaseline")) then
    log DEBUG "Skipping non-patching task" ;;
    ret c
  else
    emit (SsmDescribeMaintenanceWindowExecutionTaskInvocations execution_id task_id) ;;
    for_pages (invocation_page_step ssm)
      (describe_maintenance_window_execution_task_invocations_pages
         ssm execution_id task_id) c.

(** Everything after [execution_id] is chosen. *)
Definition tally_execution (ssm : ssm_client) (execution_id : string) : M counts :=
  log INFO "Using latest WindowExecutionId" ;;
  tasks <- request (SsmDescribeMaintenanceWindowExecutionTasks execution_id)
             (describe_maintenance_window_execution_tasks ssm execution_id) ;;
  let tasks := default [] tasks in
  log DEBUG "Found tasks" ;;
  c <- for_each (task_step ssm execution_id) tasks (0, 0) ;;
  log INFO "Patch summary" ;;
  ret c.

(** The [try] block. *)
Definition get_patch_status_counts_body (ssm : ssm_client) (window_id : string)
  : M counts :=
  if negb (String.prefix "mw-" window_id) then
    log WARNING "Invalid MaintenanceWindowId skipped" ;;
    ret (0, 0)
  else
    log INFO "Processing MaintenanceWindowId" ;;
    response <- request (SsmDescribeMaintenanceWindowExecutions window_id 10)
                  (describe_maintenance_window_executions ssm window_id 10) ;;
    let executions := default [] response in
    match executions with
    | [] =>
        log INFO "No executions found" ;;
        ret (0, 0)
    | _ :: _ =>
        latest <- index (sort_executions executions) 0 ;;
        tally_execution ssm (WindowExecutionId latest)
    end.

(** The handler logs and falls off the end of the function, which then
    returns [None]. *)
Definition get_patch_status_counts (ssm : ssm_client) (window_id : string)
  : M (option counts) :=
  log DEBUG "Starting patch status evaluation" ;;
  try_except
    (c <- get_patch_status_counts_body ssm window_id ;; ret (Some c))
    (fun _ => log ERROR "Unhandled exception while evaluating patch status" ;;
              ret None).

End StatusResolver.

(** ** Sessions and [assume_role] *)

Record credentials : Type := mk_credentials {
  AccessKeyId : string;
  SecretAccessKey : string;
  SessionToken : string
}.

(** A [boto3.Session]. *)
Record session : Type := mk_session {
  session_credentials : credentials;
  region_name : string
}.

(** The AWS side of a run: the STS endpoint reached with the caller's own
    credentials, and the clients a session gives. *)
Record aws : Type := mk_aws {
  sts_assume_role : string -> string -> result credentials;
  client_ssm : session -> ssm_client;
  client_ec2 : session -> ec2_client;
  client_resource_groups : session -> rg_client
}.

Definition assume_role (cloud : aws) (account_id role_name region : string)
  : M session :=
  log INFO "Assuming role" ;;
  try_except
    (let role_arn := "arn:aws:iam::" +:+ account_id +:+ ":role/" +:+ role_name in
     creds <- request (StsAssumeRole role_arn "MWCheckSession")
                (sts_assume_role cloud role_arn "MWCheckSession") ;;
     ret (mk_session creds region))
    (fun e => log ERROR "STS AssumeRole failed" ;; raise e).

(** A row of the pre-patch report. *)
Record report_row : Type := mk_report_row {
  row_AccountId : string;
  row_Region : string;
  row_RoleName : string;
  row_MaintenanceWindowId : string;
  row_MaintenanceWindowName : string;
  row_TargetInstanceCount : nat
}.

(** ** [runs_today] *)

Definition microseconds_per_day : Z := 86400000000.

(** [s.replace(old, new)] for a non-empty [old]. *)
Definition str_replace (old new s : string) : string :=
  match str_split old s with
  | [] => ""
  | piece :: pieces => foldl (fun acc p => acc +:+ new +:+ p) piece pieces
  end.

Section DayFilter.

(** [datetime.fromisoformat]: whether the result is timezone-aware and its
    microseconds; [None] stands for [ValueError]. *)
Variable fromisoformat : string -> option (bool * Z).

(** The reading of [datetime.now(timezone.utc)], in microseconds from the
    epoch, taken as the same for every call of one pass. *)
Variable now_utc : Z.

(** The [try] block; both a naive datetime, once given [tzinfo=utc], and
    an aware one are compared as instants. *)
Definition runs_today_body (next_execution_time : time_value) : M bool :=
  t <- match next_execution_time with
       | TimeStr s =>
           match fromisoformat (str_replace "Z" "+00:00" s) with
           | Some (_, micros) => ret micros
           | None => raise (ValueError "Invalid isoformat string")
           end
       | TimeDatetime _ micros => ret micros
       end ;;
  let start_of_today := (now_utc - now_utc `mod` microseconds_per_day)%Z in
  let end_of_today := (start_of_today + microseconds_per_day)%Z in
  let result := (start_of_today <=? t)%Z && (t <? end_of_today)%Z in
  log DEBUG "runs_today result" ;;
  ret result.

Definition runs_today (next_execution_time : time_value) : M bool :=
  log DEBUG "Evaluating NextExecutionTime" ;;
  try_except (runs_today_body next_execution_time)
    (fun _ => log ERROR "Error while evaluating runs_today()" ;; ret false).

(** ** The window loop of [pre_patch_notification] *)

(** [mw["Name"]]. *)
Definition window_name (mw : maintenance_window) : M string :=
  match window_Name mw with
  | Some n => ret n
  | None => raise (KeyError "Name")
  end.

(** The body of [for mw in response["WindowIdentities"]]. *)
Definition window_step (ssm : ssm_client) (ec2 : ec2_client)
    (resourcegroups : rg_client) (account_id region role_name : string)
    (output_rows : list report_row) (mw : maintenance_window)
  : M (list report_row) :=
  log INFO "Checking MW" ;;
  match NextExecutionTime mw with
  | None =>
      log DEBUG "Skipping MW (no NextExecutionTime)" ;;
      ret output_rows
  | Some next_execution_time =>
      if negb (String.prefix "mmpatching" (default "" (window_Name mw))) then
        log DEBUG "Skipping MW (MW not starting with 'mmpatching')" ;;
        ret output_rows
      else
        today <- runs_today next_execution_time ;;
        if today then
          target_count <- get_target_count ssm ec2 resourcegroups (WindowId mw) ;;
          name <- window_name mw ;;
          log INFO "MW running today" ;;
          ret (output_rows ++
               [mk_report_row account_id region role_name (WindowId mw) name
                  target_count])
        else ret output_rows
  end.

(** The body of [for row in pre_patch_rows], for one line of
    [accounts.csv]. *)
Definition account_step (cloud : aws) (output_rows : list report_row)
    (row : string * string * string) : M (list report_row) :=
  let '(account_id, role_name, region) := row in
  log INFO "Processing account" ;;
  session <- assume_role cloud account_id role_name region ;;
  let ssm := client_ssm cloud session in
  let ec2 := client_ec2 cloud session in
  let resourcegroups := client_resource_groups cloud session in
  windows <- request SsmDescribeMaintenanceWindows
               (describe_maintenance_windows ssm) ;;
  for_each (window_step ssm ec2 resourcegroups account_id region role_name)
    windows output_rows.

End DayFilter.

(** ** [post_patch_function] *)

(** A row of the pre-patch report as [csv.DictReader] gives it back: every
    column is a string. *)
Record csv_row : Type := mk_csv_row {
  csv_AccountId : string;
  csv_Region : string;
  csv_RoleName : string;
  csv_MaintenanceWindowId : string;
  csv_MaintenanceWindowName : string;
  csv_TargetInstanceCount : string
}.

Record post_patch_row : Type := mk_post_patch_row {
  post_AccountId : string;
  post_Region : string;
  post_RoleName : string;
  post_MaintenanceWindowId : string;
  post_MaintenanceWindowName : string;
  post_TargetInstanceCount : string;
  post_Success : nat;
  post_Failure : nat
}.

(** The cache variables of the loop. *)
Record cache : Type := mk_cache {
  cached_session : option session;
  cached_account_id : option string;
  cached_role_name : option string;
  cached_region : option string
}.

Definition empty_cache : cache := mk_cache None None None None.

(** The condition of [if (cached_session is None or account_id != ... )]. *)
Definition must_assume (c : cache) (account_id role_name region : string) : bool :=
  bool_decide (cached_session c = None)
  || negb (bool_decide (cached_account_id c = Some account_id))
  || negb (bool_decide (cached_role_name c = Some role_name))
  || negb (bool_decide (cached_region c = Some region)).

(** What the report store and the mailer answer; file and bucket contents
    are theirs. *)
Record collaborators : Type := mk_collaborators {
  shared_account_file : string -> result (string * string * string);
  s3_get_csv : session -> string -> string -> result (list csv_row);
  s3_put_csv : session -> string -> string -> list post_patch_row -> result unit;
  ses_send : session -> string -> list post_patch_row -> result unit
}.

Section PostPatch.

Variable json_loads : string -> option json.
Variable cloud : aws.
Variable store : collaborators.

(** [session.client(...)] on the cached session. *)
Definition the_session (c : cache) : M session :=
  match cached_session c with
  | Some s => ret s
  | None => raise (AttributeError "'NoneType' object has no attribute 'client'")
  end.

(** [success, failure = get_patch_status_counts(ssm, window_id)]. *)
Definition unpack_counts (r : option counts) : M counts :=
  match r with
  | Some c => ret c
  | None => raise (TypeError "cannot unpack non-iterable NoneType object")
  end.

(** The body of [for row in pre_patch_rows]. *)
Definition post_patch_row_step (st : cache * list post_patch_row) (row : csv_row)
  : M (cache * list post_patch_row) :=
  let c := fst st in
  let post_patch_rows := snd st in
  let account_id := csv_AccountId row in
  let role_name := csv_RoleName row in
  let region := csv_Region row in
  let window_id := csv_MaintenanceWindowId row in
  let window_name := csv_MaintenanceWindowName row in
  c' <- (if must_assume c account_id role_name region then
           s <- assume_role cloud account_id role_name region ;;
           ret (mk_cache (Some s) (Some account_id) (Some role_name) (Some region))
         else ret c) ;;
  session <- the_session c' ;;
  let ssm := client_ssm cloud session in
  r <- get_patch_status_counts json_loads ssm window_id ;;
  sf <- unpack_counts r ;;
  let post_patch_rows' :=
    post_patch_rows ++
    [mk_post_patch_row account_id region role_name window_id window_name
       (csv_TargetInstanceCount row) (fst sf) (snd sf)] in
  log INFO "Summary of Maintenance Windows Instances Patching Status" ;;
  ret (c', post_patch_rows').

Definition post_patch_loop (pre_patch_rows : list csv_row)
  : M (cache * list post_patch_row) :=
  for_each post_patch_row_step pre_patch_rows (empty_cache, []).

Definition load_shared_account (csv_file : string) : M (string * string * string) :=
  log INFO "To load shared or email account details from CSV" ;;
  try_except (request (ReadLocalCsv csv_file) (shared_account_file store csv_file))
    (fun e => log ERROR "Failed to load shared or email account details" ;; raise e).

Definition read_csv_from_s3 (s3 : session) (bucket key : string) : M (list csv_row) :=
  log INFO "Reading CSV from s3" ;;
  try_except (request (S3GetObject bucket key) (s3_get_csv store s3 bucket key))
    (fun e => log ERROR "Failed to read CSV from S3" ;; raise e).

Definition write_csv_to_s3 (s3 : session) (bucket key : string)
    (rows : list post_patch_row) : M unit :=
  log INFO "Writing CSV to s3" ;;
  try_except
    (_ <- index rows 0 ;;
     request (S3PutObject bucket key) (s3_put_csv store s3 bucket key rows) ;;
     log INFO "CSV successfully written to S3")
    (fun e => log ERROR "Failed writing CSV to S3" ;; raise e).

Definition send_email_ses (s : session) (subject : string)
    (rows : list post_patch_row) : M unit :=
  log INFO "Sending SES email" ;;
  try_except
    (request (SesSendEmail subject) (ses_send store s subject rows) ;;
     log INFO "SES email sent successfully")
    (fun e => log ERROR "SES email send failed" ;; raise e).

Definition INPUT_BUCKET : string := "mmpatching-custom-patchbaseline-dev".
Definition PRE_PATCH_KEY : string :=
  "pre_patch_notification/mw-running-today-output.csv".
Definition POST_PATCH_KEY : string :=
  "post_patch_notification/mw-post-patch-output.csv".

(** The [try] block of [post_patch_function]; the [s3] client that writes
    the report is the one bound last, in the loop. *)
Definition post_patch_function_body : M unit :=
  shared <- load_shared_account "email_account.csv" ;;
  session <- assume_role cloud (fst (fst shared)) (snd (fst shared)) (snd shared) ;;
  pre_patch_rows <- read_csv_from_s3 session INPUT_BUCKET PRE_PATCH_KEY ;;
  match pre_patch_rows with
  | [] =>
      emit (Print "No Maintenance Windows Scheduled for today. Skipping notification.") ;;
      log INFO "No Maintenance Windows Scheduled for today. Skipping notification." ;;
      sys_exit 0
  | _ :: _ =>
      st <- post_patch_loop pre_patch_rows ;;
      let post_patch_rows := snd st in
      for_each (fun _ _ => log INFO "Summary row") post_patch_rows tt ;;
      email_cfg <- load_shared_account "email_account.csv" ;;
      session <- assume_role cloud (fst (fst email_cfg)) (snd (fst email_cfg))
                   (snd email_cfg) ;;
      s3 <- the_session (fst st) ;;
      write_csv_to_s3 s3 INPUT_BUCKET POST_PATCH_KEY post_patch_rows ;;
      send_email_ses session "Post Patch Status Report" post_patch_rows ;;
      log INFO "Post patch processing completed successfully"
  end.

Definition post_patch_function : M unit :=
  log INFO "Starting Maintenance Window post-patch scan" ;;
  try_except post_patch_function_body
    (fun _ => log CRITICAL "Post patch execution failed" ;; sys_exit 1).

End PostPatch.

(** ** [pre_patch_notification] *)

(** The value [pre_patch_notification] returns. *)
Record summary : Type := mk_summary {
  status : string;
  records_written : nat
}.

(** What the pre-patch phase reaches outside AWS's SSM, EC2 and STS: the two
    local CSV files, the bucket of the report and SES.  [build_html_table] is
    pure and is taken as part of the send. *)
Record pre_collaborators : Type := mk_pre_collaborators {
  accounts_file : string -> result (list (string * string * string));
  email_account_file : string -> result (string * string * string);
  s3_put_report : session -> string -> string -> list report_row -> result unit;
  ses_send_report : session -> string -> list report_row -> result unit
}.

Module PrePatch.
Section PrePatch.

Variable fromisoformat : string -> option (bool * Z).
Variable now_utc : Z.
Variable cloud : aws.
Variable store : pre_collaborators.

Definition read_csv_local (file_name : string) : M (list (string * string * string)) :=
  log INFO "Reading account ids, role_name and region from CSV" ;;
  try_except (request (ReadLocalCsv file_name) (accounts_file store file_name))
    (fun e => log ERROR "account ids, role_name and region from CSV" ;; raise e).

Definition load_shared_account (csv_file : string) : M (string * string * string) :=
  log INFO "To load shared or email account details from CSV" ;;
  try_except (request (ReadLocalCsv csv_file) (email_account_file store csv_file))
    (fun e => log ERROR "Failed to load shared or email account details" ;; raise e).

Definition write_csv_to_s3 (s3 : session) (bucket key : string)
    (rows : list report_row) : M unit :=
  log INFO "Writing CSV to s3" ;;
  try_except
    (_ <- index rows 0 ;;
     request (S3PutObject bucket key) (s3_put_report store s3 bucket key rows) ;;
     log INFO "CSV successfully written to S3")
    (fun e => log ERROR "Failed writing CSV to S3" ;; raise e).

Definition send_email_ses (s : session) (subject : string)
    (rows : list report_row) : M unit :=
  log INFO "Sending SES email" ;;
  try_except
    (request (SesSendEmail subject) (ses_send_report store s subject rows) ;;
     log INFO "SES email sent successfully")
    (fun e => log ERROR "SES email send failed" ;; raise e).

(** The body of [for row in pre_patch_rows], with the local [s3] that the
    loop binds and the code after the loop reads. *)
Definition pre_patch_row_step (st : option session * list report_row)
    (row : string * string * string) : M (option session * list report_row) :=
  let '(account_id, role_name, region) := row in
  log INFO "Processing account" ;;
  session <- assume_role cloud account_id role_name region ;;
  let ssm := client_ssm cloud session in
  let ec2 := client_ec2 cloud session in
  let s3 := session in
  let resourcegroups := client_resource_groups cloud session in
  windows <- request SsmDescribeMaintenanceWindows
               (describe_maintenance_windows ssm) ;;
  output_rows <- for_each
                   (window_step fromisoformat now_utc ssm ec2 resourcegroups
                      account_id region role_name)
                   windows (snd st) ;;
  ret (Some s3, output_rows).

(** Reading the local [s3] after the loop. *)
Definition read_s3 (s3 : option session) : M session :=
  match s3 with
  | Some s => ret s
  | None => raise (UnboundLocalError "s3")
  end.

Definition OUTPUT_BUCKET : string := "mmpatching-custom-patchbaseline-dev".
Definition OUTPUT_KEY : string :=
  "pre_patch_notification/mw-running-today-output.csv".

(** The [try] block of [pre_patch_notification]. *)
Definition pre_patch_notification_body : M summary :=
  pre_patch_rows <- read_csv_local "accounts.csv" ;;
  st <- for_each pre_patch_row_step pre_patch_rows (None, []) ;;
  let output_rows := snd st in
  match output_rows with
  | [] =>
      log INFO "No Maintenance Windows running today. Skipping pre and post notifications." ;;
      emit (Print "No Maintenance Windows running today. Skipping notification.") ;;
      sys_exit 0
  | _ :: _ =>
      log INFO "Summary of Maintenance Windows running today" ;;
      for_each (fun _ _ => log INFO "Summary row") output_rows tt ;;
      email_cfg <- load_shared_account "email_account.csv" ;;
      session <- assume_role cloud (fst (fst email_cfg)) (snd (fst email_cfg))
                   (snd email_cfg) ;;
      s3 <- read_s3 (fst st) ;;
      write_csv_to_s3 s3 OUTPUT_BUCKET OUTPUT_KEY output_rows ;;
      send_email_ses session "Maintenance Windows Running Today" output_rows ;;
      ret (mk_summary "success" (length output_rows))
  end.

Definition pre_patch_notification : M summary :=
  log INFO "Starting Maintenance Window pre-patch scan" ;;
  try_except pre_patch_notification_body
    (fun _ => log CRITICAL "Pre patch execution failed" ;; sys_exit 1).

End PrePatch.
End PrePatch.

(** * Reference definitions and example inputs *)

(** ** Closed forms for the target resolver

    The three kinds of rule, as the [if]/[elif] chain of [get_target_count]
    tells them apart. *)
Definition is_instance_rule (r : rule) : bool := String.eqb (rule_Key r) "InstanceIds".
Definition is_tag_rule (r : rule) : bool :=
  negb (is_instance_rule r) && String.prefix "tag:" (rule_Key r).
Definition is_group_rule (r : rule) : bool :=
  String.eqb (rule_Key r) "resource-groups:Name".

(** [mw_target.get("Targets", [])]. *)
Definition rules_of (t : mw_target) : list rule := default [] (mw_Targets t).

(** What the [InstanceIds] rules of one MW target add to [total]. *)
Definition listed_instances (rules : list rule) : nat :=
  sum_list (map (fun r => length (rule_Values r)) (List.filter is_instance_rule rules)).

(** The filter appended for a tag rule. *)
Definition tag_filter_of (r : rule) : ec2_filter :=
  mk_filter ("tag:" +:+ default "" (str_split "tag:" (rule_Key r) !! 1)) (rule_Values r).

(** [tag_filters] once the rule loop of one MW target is over. *)
Definition tag_filters_of (rules : list rule) : list ec2_filter :=
  map tag_filter_of (List.filter is_tag_rule rules).

(** The instance ids on one page of [describe_instances]. *)
Definition page_instance_ids (p : ec2_page) : list string :=
  concat (map (fun r => map InstanceId (Instances r)) (Reservations p)).

(** The pages of a pagination when every fetch succeeds, the first
    exception otherwise. *)
Fixpoint fetched {P} (pages : list (result P)) : result (list P) :=
  match pages with
  | [] => inr []
  | inr p :: rest =>
      match fetched rest with
      | inr ps => inr (p :: ps)
      | inl e => inl e
      end
  | inl e :: _ => inl e
  end.

(** The size of [instance_ids] after the one lookup of an MW target. *)
Definition tag_instances (ec2 : ec2_client) (filters : list ec2_filter) : result nat :=
  match filters with
  | [] => inr 0
  | _ :: _ =>
      match fetched (describe_instances_pages ec2 filters) with
      | inr ps =>
          inr (size (list_to_set (C := gset string) (concat (map page_instance_ids ps))))
      | inl e => inl e
      end
  end.

(** The loop over the MW targets, [acc] being [total] so far; the first rule
    of the resource-group kind reads [group_name] unbound. *)
Fixpoint targets_total (ec2 : ec2_client) (targets : list mw_target) (acc : nat)
  : result nat :=
  match targets with
  | [] => inr acc
  | t :: rest =>
      if existsb is_group_rule (rules_of t)
      then inl (UnboundLocalError "group_name")
      else
        match tag_instances ec2 (tag_filters_of (rules_of t)) with
        | inr n => targets_total ec2 rest (acc + listed_instances (rules_of t) + n)
        | inl e => inl e
        end
  end.

(** Outcomes without their traces. *)
Definition to_outcome {A} (r : result A) : outcome A :=
  match r with inr a => Ok a | inl e => Raise e end.

Definition obind {A B} (o : outcome A) (k : A -> outcome B) : outcome B :=
  match o with Ok a => k a | Raise e => Raise e | Exit c => Exit c end.

(** The sub-total of one MW target when its lookup succeeds. *)
Definition target_subtotal (ec2 : ec2_client) (t : mw_target) : nat :=
  listed_instances (rules_of t) +
  match tag_instances ec2 (tag_filters_of (rules_of t)) with
  | inr n => n
  | inl _ => 0
  end.

Definition lookup_succeeds (ec2 : ec2_client) (t : mw_target) : Prop :=
  exists n, tag_instances ec2 (tag_filters_of (rules_of t)) = inr n.

(** The members of a resource group that are EC2 instances. *)
Definition instance_members (members : list resource_identifier)
  : list resource_identifier :=
  List.filter (fun m => String.eqb (ResourceType m) "AWS::EC2::Instance") members.

Definition group_member_ids (rg : rg_client) (g : string) : list string :=
  match fetched (list_group_resources_pages rg g) with
  | inr ps => map ResourceArn (instance_members (concat (map ResourceIdentifiers ps)))
  | inl _ => []
  end.

(** The reading of the specification: every identifier that the rules of one
    MW target resolve to, of whatever kind, and per window the sum over its
    MW targets of the number of distinct ones. *)
Definition resolved_identifiers (ec2 : ec2_client) (rg : rg_client) (t : mw_target)
  : list string :=
  concat (map rule_Values (List.filter is_instance_rule (rules_of t)))
  ++ match tag_filters_of (rules_of t) with
     | [] => []
     | (_ :: _) as filters =>
         match fetched (describe_instances_pages ec2 filters) with
         | inr ps => concat (map page_instance_ids ps)
         | inl _ => []
         end
     end
  ++ concat (map (group_member_ids rg)
               (concat (map rule_Values (List.filter is_group_rule (rules_of t))))).

Definition spec_union_count (ec2 : ec2_client) (rg : rg_client)
    (targets : list mw_target) : nat :=
  sum_list (map (fun t => size (list_to_set (C := gset string)
                                  (resolved_identifiers ec2 rg t))) targets).

(** ** Example inputs for the target resolver *)
Definition ssm_with_targets (targets : list mw_target) : ssm_client :=
  mk_ssm (inl (ClientError "unused")) (fun _ => inr targets)
    (fun _ _ => inl (ClientError "unused")) (fun _ => inl (ClientError "unused"))
    (fun _ _ => []) (fun _ => []).

Definition one_instance_ec2 : ec2_client :=
  mk_ec2 (fun _ => [inr (mk_ec2_page [mk_reservation [mk_instance "i-1"]])]).
Definition empty_rg : rg_client := mk_rg (fun _ => []).
Definition mixed_target : mw_target :=
  mk_mw_target (Some [mk_rule "InstanceIds" ["i-1"]; mk_rule "tag:Env" ["prod"]]).

(** An EC2 endpoint that answers a permuted filter list as it answers the
    original one. *)
Definition order_insensitive (ec2 : ec2_client) : Prop :=
  forall f f', f ≡ₚ f' -> describe_instances_pages ec2 f = describe_instances_pages ec2 f'.

Definition same_rules_reordered (t t' : mw_target) : Prop :=
  rules_of t ≡ₚ rules_of t'.

(** A group with two instances and a bucket, on two pages. *)
Definition web_group_rg : rg_client :=
  mk_rg (fun _ =>
    [inr (mk_rg_page [mk_resource "arn:i-1" "AWS::EC2::Instance";
                      mk_resource "arn:bucket" "AWS::S3::Bucket"]);
     inr (mk_rg_page [mk_resource "arn:i-2" "AWS::EC2::Instance"])]).
Definition group_target : mw_target :=
  mk_mw_target (Some [mk_rule "resource-groups:Name" ["web"]]).

(** An endpoint whose second page fails. *)
Definition failing_second_page_ec2 : ec2_client :=
  mk_ec2 (fun _ => [inr (mk_ec2_page [mk_reservation [mk_instance "i-1"]]);
                    inl (ClientError "RequestLimitExceeded")]).
Definition listed_target : mw_target :=
  mk_mw_target (Some [mk_rule "InstanceIds" ["i-7"; "i-8"]]).
Definition tag_target : mw_target :=
  mk_mw_target (Some [mk_rule "tag:Env" ["prod"]]).

(** An endpoint that answers by the number of filters alone. *)
Definition counting_ec2 : ec2_client :=
  mk_ec2 (fun filters =>
    match filters with
    | [_] => [inr (mk_ec2_page [mk_reservation [mk_instance "i-1"]])]
    | _ => [inr (mk_ec2_page [mk_reservation [mk_instance "i-1"; mk_instance "i-2"]])]
    end).

Definition two_kinds : mw_target :=
  mk_mw_target (Some [mk_rule "InstanceIds" ["i-7"; "i-8"]; mk_rule "tag:Env" ["prod"];
                      mk_rule "tag:Role" ["web"]]).
Definition two_kinds_reordered : mw_target :=
  mk_mw_target (Some [mk_rule "tag:Role" ["web"]; mk_rule "InstanceIds" ["i-7"; "i-8"];
                      mk_rule "tag:Env" ["prod"]]).

(** [e], at position [i], is the first of the executions with the greatest
    start time. *)
Definition latest_first (l : list execution) (i : nat) (e : execution) : Prop :=
  l !! i = Some e
  /\ (forall j e', l !! j = Some e' -> (StartTime e' <= StartTime e)%Z)
  /\ (forall j e', j < i -> l !! j = Some e' -> (StartTime e' < StartTime e)%Z).

(** What [get_patch_status_counts] makes of the outcome of its [try] block. *)
Definition after_try (o : outcome counts) : outcome (option counts) :=
  match o with
  | Ok c => Ok (Some c)
  | Raise _ => Ok None
  | Exit code => Exit code
  end.

(** The command results a run examines, gathered in program order. *)
Fixpoint gather {A B} (f : A -> outcome (list B)) (l : list A) : outcome (list B) :=
  match l with
  | [] => Ok []
  | x :: l' => obind (f x) (fun bs => obind (gather f l') (fun bs' => Ok (bs ++ bs')))
  end.

Fixpoint gather_pages {P B} (f : P -> outcome (list B)) (pages : list (result P))
  : outcome (list B) :=
  match pages with
  | [] => Ok []
  | inr p :: rest =>
      obind (f p) (fun bs => obind (gather_pages f rest) (fun bs' => Ok (bs ++ bs')))
  | inl e :: _ => Raise e
  end.

Definition examined_on_page (p : command_page) : outcome (list command_invocation) :=
  Ok (default [] (CommandInvocations p)).

Definition examined_by_invocation (json_loads : string -> option json)
    (ssm : ssm_client) (inv : invocation) : outcome (list command_invocation) :=
  obind (snd (read_operation json_loads inv)) (fun operation =>
  obind (snd (py_in "Install" operation)) (fun has_install =>
  if negb has_install then Ok []
  else
    match inv_ExecutionId inv with
    | Some ((String _ _) as command_id) =>
        gather_pages examined_on_page (list_command_invocations_pages ssm command_id)
    | _ => Ok []
    end)).

Definition examined_by_task (json_loads : string -> option json) (ssm : ssm_client)
    (execution_id : string) (t : task) : outcome (list command_invocation) :=
  if negb (bool_decide (TaskArn t = Some "AWS-RunPatchBaseline")) then Ok []
  else
    gather_pages
      (fun page => gather (examined_by_invocation json_loads ssm)
                     (default [] (WindowExecutionTaskInvocationIdentities page)))
      (describe_maintenance_window_execution_task_invocations_pages ssm execution_id
         (TaskExecutionId t)).

Definition examined_results (json_loads : string -> option json) (ssm : ssm_client)
    (execution_id : string) : outcome (list command_invocation) :=
  obind (to_outcome (describe_maintenance_window_execution_tasks ssm execution_id))
    (fun tasks => gather (examined_by_task json_loads ssm execution_id)
                    (default [] tasks)).

(** The two classes of command status. *)
Definition is_success (r : command_invocation) : bool :=
  match cmd_Status r with
  | Some s => String.eqb s "Success"
  | None => false
  end.

Definition is_failure (r : command_invocation) : bool :=
  match cmd_Status r with
  | Some s => existsb (String.eqb s) failure_statuses
  | None => false
  end.

(** The counters after the results [rs], from the counters [c]. *)
Definition tally_of (c : counts) (rs : list command_invocation) : counts :=
  (fst c + length (List.filter is_success rs),
   snd c + length (List.filter is_failure rs)).

(** Events that are not requests. *)
Definition is_log (ev : event) : bool :=
  match ev with
  | Log _ _ | Print _ => true
  | _ => false
  end.

(** A computation none of whose events satisfies [P]. *)
Definition quiet {A} (P : event -> bool) (m : M A) : Prop :=
  forallb (fun ev => negb (P ev)) (fst m) = true.

(** The calls of the Session Provider. *)
Definition is_sts (ev : event) : bool :=
  match ev with
  | StsAssumeRole _ _ => true
  | _ => false
  end.

(** ** Session reuse *)
Definition account_context : Type := string * string * string.

Definition context_of (row : csv_row) : account_context :=
  (csv_AccountId row, csv_RoleName row, csv_Region row).

(** The number of positions of [l] that start a maximal run of equal
    consecutive elements, [prev] being what comes before [l]. *)
Fixpoint run_starts (prev : option account_context) (l : list account_context) : nat :=
  match l with
  | [] => 0
  | x :: l' =>
      (if decide (prev = Some x) then 0 else 1) + run_starts (Some x) l'
  end.

Definition runs (l : list account_context) : nat := run_starts None l.

(** The number of events of a trace that satisfy [P]. *)
Definition calls (P : event -> bool) (t : list event) : nat :=
  length (List.filter P t).

(** What the cache variables hold: nothing, or a session for a context. *)
Definition cache_holds (c : cache) (k : option account_context) : Prop :=
  match k with
  | None => cached_session c = None
  | Some (account_id, role_name, region) =>
      (exists s, cached_session c = Some s)
      /\ cached_account_id c = Some account_id
      /\ cached_role_name c = Some role_name
      /\ cached_region c = Some region
  end.

(** Example inputs for the status resolver and the post-patch loop. *)
Definition install_payload : json :=
  JObject [("parameters", JObject [("Operation", JArray [JString "Install"])])].
Definition scan_payload : json :=
  JObject [("parameters", JObject [("Operation", JArray [JString "Scan"])])].

Definition example_json_loads (s : string) : option json :=
  if String.eqb s "{install}" then Some install_payload
  else if String.eqb s "{scan}" then Some scan_payload
  else None.

Definition example_ssm : ssm_client :=
  mk_ssm (inr [])
    (fun _ => inr [])
    (fun window_id _ =>
       if String.eqb window_id "mw-bad" then inl (ClientError "ThrottlingException")
       else if String.eqb window_id "mw-new" then inr (Some [])
       else inr (Some [mk_execution "e-old" 5; mk_execution "e-new" 9;
                       mk_execution "e-tie" 9]))
    (fun _ => inr (Some [mk_task (Some "AWS-RunPatchBaseline") (Some "t-1");
                         mk_task (Some "AWS-RunShellScript") (Some "t-2")]))
    (fun _ _ =>
       [inr (mk_invocation_page
               (Some [mk_invocation (Some "{install}") (Some "c-1");
                      mk_invocation (Some "{scan}") (Some "c-2");
                      mk_invocation (Some "{broken") (Some "c-3")]))])
    (fun _ =>
       [inr (mk_command_page
               (Some [mk_command_invocation (Some "i-1") (Some "Success");
                      mk_command_invocation (Some "i-2") (Some "Failed");
                      mk_command_invocation (Some "i-3") (Some "InProgress")]))]).

Definition example_cloud : aws :=
  mk_aws (fun _ _ => inr (mk_credentials "AKIA" "secret" "token"))
    (fun _ => example_ssm) (fun _ => one_instance_ec2) (fun _ => empty_rg).

Definition row_of (account_id window_id : string) : csv_row :=
  mk_csv_row account_id "us-east-1" "PatchRole" window_id "mmpatching-weekly" "2".

Definition example_store (rows : list csv_row) : collaborators :=
  mk_collaborators (fun _ => inr ("999", "MailRole", "us-east-1"))
    (fun _ _ _ => inr rows) (fun _ _ _ _ => inr tt) (fun _ _ _ => inr tt).

Definition rows_with_bad_window : list csv_row :=
  [row_of "111" "mw-1"; row_of "111" "mw-bad"; row_of "222" "mw-3"].

Definition is_put_or_send (ev : event) : bool :=
  match ev with
  | S3PutObject _ _ | SesSendEmail _ => true
  | _ => false
  end.

Definition asks_executions_of (window_id : string) (ev : event) : bool :=
  match ev with
  | SsmDescribeMaintenanceWindowExecutions w _ => String.eqb w window_id
  | _ => false
  end.

(** Four rows whose contexts are A, A, B, A. *)
Definition example_rows : list csv_row :=
  [row_of "111" "mw-1"; row_of "111" "mw-2"; row_of "222" "mw-3"; row_of "111" "mw-4"].

(** 03:00 of 2 May 2024, UTC, is the one date the example parser knows. *)
Definition example_fromisoformat (s : string) : option (bool * Z) :=
  if String.eqb s "2024-05-02T03:00:00+00:00" then Some (true, 1714618800000000%Z)
  else None.

(** Noon of 2 May 2024, UTC. *)
Definition example_now : Z := 1714651200000000%Z.

Definition window_today : maintenance_window :=
  mk_window "mw-1" (Some "mmpatching-weekly") (Some (TimeStr "2024-05-02T03:00:00Z")).
Definition window_other_name : maintenance_window :=
  mk_window "mw-2" (Some "backup-nightly") (Some (TimeStr "2024-05-02T03:00:00Z")).

(** ** Further reference definitions *)



(** The rules that one of the first three branches of [get_target_count]
    takes. *)
Definition supported_rule (r : rule) : bool :=
  is_instance_rule r || is_tag_rule r || is_group_rule r.

Definition without_unsupported (t t' : mw_target) : Prop :=
  rules_of t' = List.filter supported_rule (rules_of t).

(** The filter lists of the [describe_instances] lookups of a trace, and the
    requests to the resource-groups endpoint. *)
Definition ec2_lookups (t : list event) : list (list ec2_filter) :=
  omap (fun ev => match ev with Ec2DescribeInstances f => Some f | _ => None end) t.

Definition is_group_request (ev : event) : bool :=
  match ev with
  | RgListGroupResources _ => true
  | _ => false
  end.

(** The post-patch row that a pre-patch row becomes, given its counts. *)
Definition post_row_of (row : csv_row) (sf : counts) : post_patch_row :=
  mk_post_patch_row (csv_AccountId row) (csv_Region row) (csv_RoleName row)
    (csv_MaintenanceWindowId row) (csv_MaintenanceWindowName row)
    (csv_TargetInstanceCount row) (fst sf) (snd sf).

(** The pre-patch row under a post-patch row. *)
Definition pre_row_of (p : post_patch_row) : csv_row :=
  mk_csv_row (post_AccountId p) (post_Region p) (post_RoleName p)
    (post_MaintenanceWindowId p) (post_MaintenanceWindowName p)
    (post_TargetInstanceCount p).

(** The role that [assume_role] asks for. *)
Definition role_arn_of (account_id role_name : string) : string :=
  "arn:aws:iam::" +:+ account_id +:+ ":role/" +:+ role_name.

(** What a row's status lookup gives under a session obtained for the row's
    own account, role and region, with no cache in between. *)
Definition uncached_counts (json_loads : string -> option json) (cloud : aws)
    (row : csv_row) : outcome (option counts) :=
  match sts_assume_role cloud (role_arn_of (csv_AccountId row) (csv_RoleName row))
          "MWCheckSession" with
  | inr creds =>
      snd (get_patch_status_counts json_loads
             (client_ssm cloud (mk_session creds (csv_Region row)))
             (csv_MaintenanceWindowId row))
  | inl e => Raise e
  end.

(** A cache that holds a session which [assume_role] gives for the context
    it is kept under. *)
Definition cache_is_genuine (cloud : aws) (c : cache) : Prop :=
  match cached_session c with
  | None => True
  | Some s =>
      exists account_id role_name region creds,
        cached_account_id c = Some account_id
        /\ cached_role_name c = Some role_name
        /\ cached_region c = Some region
        /\ sts_assume_role cloud (role_arn_of account_id role_name) "MWCheckSession"
           = inr creds
        /\ s = mk_session creds region
  end.

Definition is_ec2_request (ev : event) : bool :=
  match ev with
  | Ec2DescribeInstances _ => true
  | _ => false
  end.

(** The lookups that one MW target causes: one with all its tag filters when
    it has any, none otherwise. *)
Definition lookups_of (t : mw_target) : list (list ec2_filter) :=
  match tag_filters_of (rules_of t) with
  | [] => []
  | (_ :: _) as filters => [filters]
  end.

(** The task that patches, and the requests of a trace. *)
Definition is_patch_task (t : task) : bool :=
  bool_decide (TaskArn t = Some "AWS-RunPatchBaseline").

Definition requests_of (t : list event) : list event :=
  List.filter (fun ev => negb (is_log ev)) t.

(** An AWS side whose credentials name the role they were issued for, and a
    bucket that only the shared account's role may write. *)
Definition role_named_cloud : aws :=
  mk_aws (fun role_arn _ => inr (mk_credentials role_arn "secret" "token"))
    (fun _ => example_ssm) (fun _ => one_instance_ec2) (fun _ => empty_rg).

Definition shared_bucket_store (rows : list csv_row) : collaborators :=
  mk_collaborators (fun _ => inr ("999", "MailRole", "us-east-1"))
    (fun _ _ _ => inr rows)
    (fun s3 _ _ _ =>
       if String.eqb (AccessKeyId (session_credentials s3))
            "arn:aws:iam::999:role/MailRole"
       then inr tt else inl (ClientError "AccessDenied"))
    (fun _ _ _ => inr tt).

(** A window that gets a row: it has a [NextExecutionTime], a name that
    starts with [mmpatching], and [runs_today] accepts it. *)
Definition scheduled_today (fromisoformat : string -> option (bool * Z)) (now_utc : Z)
    (mw : maintenance_window) : bool :=
  match NextExecutionTime mw with
  | None => false
  | Some t =>
      String.prefix "mmpatching" (default "" (window_Name mw))
      && match snd (runs_today fromisoformat now_utc t) with
         | Ok b => b
         | _ => false
         end
  end.

(** The row of a window, with the count that [get_target_count] gives. *)
Definition row_of_window (ssm : ssm_client) (ec2 : ec2_client) (rg : rg_client)
    (account_id region role_name : string) (mw : maintenance_window) : report_row :=
  mk_report_row account_id region role_name (WindowId mw)
    (default "" (window_Name mw))
    (match snd (get_target_count ssm ec2 rg (WindowId mw)) with
     | Ok n => n
     | _ => 0
     end).

(** What one line of [accounts.csv] leads to: the session and the windows
    listed under it, or the exception of the role or of the listing. *)
Definition account_windows (cloud : aws) (row : string * string * string)
  : result (session * list maintenance_window) :=
  let '(account_id, role_name, region) := row in
  match sts_assume_role cloud (role_arn_of account_id role_name) "MWCheckSession" with
  | inl e => inl e
  | inr creds =>
      let s := mk_session creds region in
      match describe_maintenance_windows (client_ssm cloud s) with
      | inl e => inl e
      | inr windows => inr (s, windows)
      end
  end.

Definition account_rows (fromisoformat : string -> option (bool * Z)) (now_utc : Z)
    (cloud : aws) (row : string * string * string) : list report_row :=
  match account_windows cloud row with
  | inl _ => []
  | inr (s, windows) =>
      map (row_of_window (client_ssm cloud s) (client_ec2 cloud s)
             (client_resource_groups cloud s) (fst (fst row)) (snd row) (snd (fst row)))
        (List.filter (scheduled_today fromisoformat now_utc) windows)
  end.

Definition account_answers (cloud : aws) (row : string * string * string) : bool :=
  match account_windows cloud row with
  | inr _ => true
  | inl _ => false
  end.


(** Example inputs for the pre-patch phase: an account with one window that
    runs today and one of another name, a role that cannot be assumed, and a
    bucket that only the shared account's role may write. *)
Definition patching_ssm : ssm_client :=
  mk_ssm (inr [window_today; window_other_name]) (fun _ => inr [listed_target])
    (fun _ _ => inr None) (fun _ => inr None) (fun _ _ => []) (fun _ => []).

Definition patching_cloud : aws :=
  mk_aws (fun role_arn _ =>
            if String.eqb role_arn "arn:aws:iam::222:role/PatchRole"
            then inl (ClientError "AccessDenied")
            else inr (mk_credentials role_arn "secret" "token"))
    (fun _ => patching_ssm) (fun _ => one_instance_ec2) (fun _ => empty_rg).

Definition example_pre_store (accounts : list (string * string * string))
  : pre_collaborators :=
  mk_pre_collaborators (fun _ => inr accounts)
    (fun _ => inr ("999", "MailRole", "us-east-1"))
    (fun s3 _ _ _ =>
       if String.eqb (AccessKeyId (session_credentials s3))
            "arn:aws:iam::999:role/MailRole"
       then inr tt else inl (ClientError "AccessDenied"))
    (fun _ _ _ => inr tt).

(** * Verification *)

Lemma snd_bind {A B} (m : M A) (k : A -> M B) :
  snd (bind m k) = obind (snd m) (fun a => snd (k a)).
Proof. destruct m as [t [a|e|c]]; simpl; try reflexivity. destruct (k a); reflexivity. Qed.

Lemma fst_bind {A B} (m : M A) (k : A -> M B) :
  fst (bind m k) = fst m ++ match snd m with Ok a => fst (k a) | _ => [] end.
Proof.
  destruct m as [t [a|e|c]]; simpl; rewrite ?app_nil_r; try reflexivity.
  destruct (k a); reflexivity.
Qed.

Lemma snd_try_except {A} (m : M A) (h : exn -> M A) :
  snd (try_except m h) =
  match snd m with Raise e => snd (h e) | other => other end.
Proof. destruct m as [t [a|e|c]]; simpl; try reflexivity. destruct (h e); reflexivity. Qed.

Lemma fst_try_except {A} (m : M A) (h : exn -> M A) :
  fst (try_except m h) =
  fst m ++ match snd m with Raise e => fst (h e) | _ => [] end.
Proof.
  destruct m as [t [a|e|c]]; simpl; rewrite ?app_nil_r; try reflexivity.
  destruct (h e); reflexivity.
Qed.

Lemma split_go_nonempty sep s skip cur : split_go sep s skip cur <> [].
Proof.
  revert skip cur. induction s as [|c s IH]; intros skip cur; cbn [split_go]; [done|].
  destruct skip; [|apply IH].
  destruct (String.prefix sep (String c s)); [done|apply IH].
Qed.

Lemma split_tag_second key :
  String.prefix "tag:" key = true ->
  exists k, str_split "tag:" key !! 1 = Some k.
Proof.
  intros H. unfold str_split. destruct key as [|c s]; [discriminate|].
  cbn [split_go]. rewrite H.
  destruct (split_go "tag:" s (String.length "tag:" - 1) "") as [|k l] eqn:E.
  - exfalso. exact (split_go_nonempty _ _ _ _ E).
  - exists k. reflexivity.
Qed.

Lemma group_rule_key r :
  is_group_rule r = true ->
  String.eqb (rule_Key r) "InstanceIds" = false /\
  String.prefix "tag:" (rule_Key r) = false.
Proof.
  unfold is_group_rule. intros H. apply String.eqb_eq in H. rewrite H. split; reflexivity.
Qed.

Lemma listed_instances_cons r rules :
  listed_instances (r :: rules) =
  (if is_instance_rule r then length (rule_Values r) else 0) + listed_instances rules.
Proof.
  unfold listed_instances. cbn [List.filter].
  destruct (is_instance_rule r); reflexivity.
Qed.

Lemma tag_filters_of_cons r rules :
  tag_filters_of (r :: rules) =
  (if is_tag_rule r then [tag_filter_of r] else []) ++ tag_filters_of rules.
Proof.
  unfold tag_filters_of. cbn [List.filter].
  destruct (is_tag_rule r); reflexivity.
Qed.

(** The rule loop, as long as [group_name] is unbound. *)
Lemma rule_loop_outcome rg rules total0 filters :
  snd (for_each (rule_step rg) rules (mk_locals total0 None, filters)) =
  if existsb is_group_rule rules
  then Raise (UnboundLocalError "group_name")
  else Ok (mk_locals (total0 + listed_instances rules) None,
           filters ++ tag_filters_of rules).
Proof.
  revert total0 filters. induction rules as [|r rules IH]; intros total0 filters.
  - simpl. unfold listed_instances, tag_filters_of. simpl.
    rewrite Nat.add_0_r, app_nil_r. reflexivity.
  - cbn [for_each existsb]. rewrite snd_bind.
    rewrite listed_instances_cons, tag_filters_of_cons.
    unfold is_tag_rule, is_instance_rule.
    unfold rule_step at 1. cbn [fst snd].
    destruct (is_group_rule r) eqn:Hg.
    + destruct (group_rule_key r Hg) as [H1 H2]. rewrite H1, H2.
      unfold is_group_rule in Hg. rewrite Hg. reflexivity.
    + unfold is_group_rule in Hg.
      destruct (String.eqb (rule_Key r) "InstanceIds") eqn:Hi.
      * cbn. rewrite IH.
        destruct (existsb is_group_rule rules); [reflexivity|].
        f_equal. f_equal. f_equal. lia.
      * destruct (String.prefix "tag:" (rule_Key r)) eqn:Ht.
        -- destruct (split_tag_second _ Ht) as [k Hk].
           unfold index, tag_filter_of. rewrite Hk. cbn. rewrite IH.
           destruct (existsb is_group_rule rules); [reflexivity|].
           rewrite <- app_assoc. reflexivity.
        -- rewrite Hg. cbn. rewrite IH. reflexivity.
Qed.

Lemma add_reservation_ids acc r :
  add_reservation acc r = acc ∪ list_to_set (map InstanceId (Instances r)).
Proof.
  unfold add_reservation. generalize (Instances r). intros l. revert acc.
  induction l as [|i l IH]; intros acc; cbn [foldl map list_to_set].
  - set_solver.
  - rewrite IH. set_solver.
Qed.

Lemma add_page_ids acc p :
  foldl add_reservation acc (Reservations p) = acc ∪ list_to_set (page_instance_ids p).
Proof.
  unfold page_instance_ids. generalize (Reservations p). intros l. revert acc.
  induction l as [|r l IH]; intros acc; cbn [foldl map concat].
  - set_solver.
  - rewrite IH, add_reservation_ids, list_to_set_app_L. set_solver.
Qed.

Lemma ec2_pages_outcome pages acc :
  snd (for_pages add_ec2_page pages acc) =
  match fetched pages with
  | inr ps => Ok (acc ∪ list_to_set (concat (map page_instance_ids ps)))
  | inl e => Raise e
  end.
Proof.
  revert acc. induction pages as [|[e|p] pages IH]; intros acc; cbn [for_pages fetched].
  - cbn. f_equal. set_solver.
  - reflexivity.
  - rewrite snd_bind. cbn [add_ec2_page ret snd obind]. rewrite IH, add_page_ids.
    destruct (fetched pages); [reflexivity|].
    cbn [map concat]. rewrite list_to_set_app_L. f_equal. set_solver.
Qed.

Lemma resolve_tags_outcome ec2 lc filters :
  snd (resolve_tags ec2 lc filters) =
  match tag_instances ec2 filters with
  | inr n => Ok (mk_locals (total lc + n) (group_name lc))
  | inl e => Raise e
  end.
Proof.
  destruct filters as [|f filters]; cbn [resolve_tags tag_instances].
  - destruct lc. cbn. rewrite Nat.add_0_r. reflexivity.
  - rewrite snd_bind. cbn [emit snd obind]. rewrite snd_bind, ec2_pages_outcome.
    destruct (fetched _); [reflexivity|].
    cbn [obind]. rewrite snd_bind. cbn [log emit snd obind ret].
    rewrite (left_id_L ∅ (∪)). reflexivity.
Qed.

Lemma mw_target_step_outcome ec2 rg total0 t :
  snd (mw_target_step ec2 rg (mk_locals total0 None) t) =
  if existsb is_group_rule (rules_of t)
  then Raise (UnboundLocalError "group_name")
  else
    match tag_instances ec2 (tag_filters_of (rules_of t)) with
    | inr n => Ok (mk_locals (total0 + listed_instances (rules_of t) + n) None)
    | inl e => Raise e
    end.
Proof.
  unfold mw_target_step. rewrite snd_bind. fold (rules_of t).
  rewrite rule_loop_outcome.
  destruct (existsb is_group_rule (rules_of t)); [reflexivity|].
  cbn [obind fst snd app]. rewrite resolve_tags_outcome. reflexivity.
Qed.

Lemma targets_loop_outcome ec2 rg targets acc :
  snd (for_each (mw_target_step ec2 rg) targets (mk_locals acc None)) =
  match targets_total ec2 targets acc with
  | inr n => Ok (mk_locals n None)
  | inl e => Raise e
  end.
Proof.
  revert acc. induction targets as [|t targets IH]; intros acc;
    cbn [for_each targets_total]; [reflexivity|].
  rewrite snd_bind, mw_target_step_outcome.
  destruct (existsb is_group_rule (rules_of t)); [reflexivity|].
  destruct (tag_instances ec2 _); [reflexivity|].
  cbn [obind]. apply IH.
Qed.

(** What [get_target_count] returns, in closed form. *)
Lemma get_target_count_outcome ssm ec2 rg window_id :
  snd (get_target_count ssm ec2 rg window_id) =
  Ok match describe_maintenance_window_targets ssm window_id with
     | inr targets =>
         match targets_total ec2 targets 0 with
         | inr n => n
         | inl _ => 0
         end
     | inl _ => 0
     end.
Proof.
  unfold get_target_count. rewrite snd_bind. cbn [log emit snd obind].
  rewrite snd_try_except. unfold get_target_count_body.
  rewrite snd_bind.
  destruct (describe_maintenance_window_targets ssm window_id) as [e|targets];
    cbn [request snd obind]; [reflexivity|].
  rewrite snd_bind, targets_loop_outcome.
  destruct (targets_total ec2 targets 0); reflexivity.
Qed.

Lemma targets_total_sum ec2 targets acc :
  Forall (fun t => existsb is_group_rule (rules_of t) = false) targets ->
  Forall (lookup_succeeds ec2) targets ->
  targets_total ec2 targets acc = inr (acc + sum_list (map (target_subtotal ec2) targets)).
Proof.
  intros Hg Hl. revert acc.
  induction targets as [|t targets IH]; intros acc; cbn [targets_total map sum_list].
  - rewrite Nat.add_0_r. reflexivity.
  - inversion Hg as [|? ? Hg1 Hg2]; subst. inversion Hl as [|? ? [n Hn] Hl2]; subst.
    rewrite Hg1. unfold target_subtotal at 1. rewrite Hn.
    rewrite (IH Hg2 Hl2). apply (f_equal inr). unfold id. lia.
Qed.

(** C1, as amended.  For a window without resource-group rules whose lookups
    succeed, [get_target_count] returns the sum over the MW targets of: the
    lengths of the value lists of the [InstanceIds] rules, plus the number of
    distinct instance ids that the one lookup with all the tag filters of the
    MW target returns.  Identifiers are deduplicated inside that lookup only:
    not across rule kinds, not across [InstanceIds] rules, not across MW
    targets. *)
Theorem get_target_count_sums_rule_counts ssm ec2 rg window_id targets :
  describe_maintenance_window_targets ssm window_id = inr targets ->
  Forall (fun t => existsb is_group_rule (rules_of t) = false) targets ->
  Forall (lookup_succeeds ec2) targets ->
  snd (get_target_count ssm ec2 rg window_id) =
  Ok (sum_list (map (target_subtotal ec2) targets)).
Proof.
  intros Hd Hg Hl. rewrite get_target_count_outcome, Hd.
  rewrite (targets_total_sum _ _ _ Hg Hl). reflexivity.
Qed.

(** Two MW targets that each list [i-1] and reach it again by tag: it is
    counted four times. *)
Lemma get_target_count_sums_rule_counts_witness :
  snd (get_target_count (ssm_with_targets [mixed_target; mixed_target])
         one_instance_ec2 empty_rg "mw-1") = Ok 4.
Proof.
  rewrite (get_target_count_sums_rule_counts _ _ _ _ [mixed_target; mixed_target]).
  - vm_compute. reflexivity.
  - reflexivity.
  - repeat constructor.
  - repeat constructor; exists 1; vm_compute; reflexivity.
Defined.

(** C1, as stated, fails: one MW target that lists [i-1] and reaches the same
    instance by tag counts 2, while the union of what its rules resolve to
    has one element. *)
Lemma union_count_differs :
  snd (get_target_count (ssm_with_targets [mixed_target]) one_instance_ec2 empty_rg
         "mw-1") = Ok 2
  /\ spec_union_count one_instance_ec2 empty_rg [mixed_target] = 1
  /\ snd (get_target_count (ssm_with_targets [mixed_target]) one_instance_ec2 empty_rg
            "mw-1")
     <> Ok (spec_union_count one_instance_ec2 empty_rg [mixed_target]).
Proof. vm_compute. repeat split; try reflexivity. intros H; discriminate H. Qed.

Lemma filter_Permutation_bool {A} (f : A -> bool) (l l' : list A) :
  l ≡ₚ l' -> List.filter f l ≡ₚ List.filter f l'.
Proof.
  induction 1 as [|x l l' _ IH|x y l|l l' l'' _ IH1 _ IH2]; cbn [List.filter].
  - reflexivity.
  - destruct (f x); [constructor|]; exact IH.
  - destruct (f x), (f y); try reflexivity. apply perm_swap.
  - etransitivity; eassumption.
Qed.

Lemma existsb_Permutation {A} (f : A -> bool) (l l' : list A) :
  l ≡ₚ l' -> existsb f l = existsb f l'.
Proof.
  induction 1 as [|x l l' _ IH|x y l|l l' l'' _ IH1 _ IH2]; cbn [existsb].
  - reflexivity.
  - rewrite IH. reflexivity.
  - destruct (f x), (f y); reflexivity.
  - congruence.
Qed.

Lemma listed_instances_Permutation rules rules' :
  rules ≡ₚ rules' -> listed_instances rules = listed_instances rules'.
Proof.
  intros H. unfold listed_instances.
  apply sum_list_with_Permutation_proper, Permutation_map, filter_Permutation_bool, H.
Qed.

Lemma tag_filters_of_Permutation rules rules' :
  rules ≡ₚ rules' -> tag_filters_of rules ≡ₚ tag_filters_of rules'.
Proof.
  intros H. unfold tag_filters_of.
  apply Permutation_map, filter_Permutation_bool, H.
Qed.

Lemma tag_instances_Permutation ec2 f f' :
  order_insensitive ec2 -> f ≡ₚ f' -> tag_instances ec2 f = tag_instances ec2 f'.
Proof.
  intros Hec2 H. unfold tag_instances. rewrite (Hec2 _ _ H).
  destruct f as [|x f], f' as [|x' f']; try reflexivity.
  - apply Permutation_nil_cons in H. destruct H.
  - symmetry in H. apply Permutation_nil_cons in H. destruct H.
Qed.

Lemma targets_total_reordered ec2 targets targets' acc :
  order_insensitive ec2 ->
  Forall2 same_rules_reordered targets targets' ->
  targets_total ec2 targets acc = targets_total ec2 targets' acc.
Proof.
  intros Hec2 H. revert acc.
  induction H as [|t t' targets targets' Ht _ IH]; intros acc; cbn [targets_total].
  - reflexivity.
  - unfold same_rules_reordered in Ht.
    rewrite (existsb_Permutation _ _ _ Ht), (listed_instances_Permutation _ _ Ht).
    rewrite (tag_instances_Permutation ec2 _ _ Hec2 (tag_filters_of_Permutation _ _ Ht)).
    destruct (existsb is_group_rule (rules_of t')); [reflexivity|].
    destruct (tag_instances ec2 _); [reflexivity|]. apply IH.
Qed.

(** C9.  Listing the rules of each MW target in another order does not change
    what [get_target_count] returns, provided the EC2 endpoint answers a
    permuted filter list as it answers the original one. *)
Theorem get_target_count_rule_order ssm ssm' ec2 rg window_id targets targets' :
  order_insensitive ec2 ->
  describe_maintenance_window_targets ssm window_id = inr targets ->
  describe_maintenance_window_targets ssm' window_id = inr targets' ->
  Forall2 same_rules_reordered targets targets' ->
  snd (get_target_count ssm ec2 rg window_id) =
  snd (get_target_count ssm' ec2 rg window_id).
Proof.
  intros Hec2 Hd Hd' H. rewrite !get_target_count_outcome, Hd, Hd'.
  rewrite (targets_total_reordered ec2 _ _ 0 Hec2 H). reflexivity.
Qed.

Lemma counting_ec2_order_insensitive : order_insensitive counting_ec2.
Proof.
  intros f f' H. apply Permutation_length in H. cbn.
  destruct f as [|a [|b f]], f' as [|a' [|b' f']]; cbn in H; try discriminate H;
    reflexivity.
Qed.

Lemma get_target_count_rule_order_witness :
  snd (get_target_count (ssm_with_targets [two_kinds]) counting_ec2 empty_rg "mw-1") =
  snd (get_target_count (ssm_with_targets [two_kinds_reordered]) counting_ec2 empty_rg
         "mw-1").
Proof.
  apply (get_target_count_rule_order _ _ _ _ _ [two_kinds] [two_kinds_reordered]).
  - exact counting_ec2_order_insensitive.
  - reflexivity.
  - reflexivity.
  - constructor; [|constructor]. unfold same_rules_reordered. cbn.
    etransitivity; [|apply perm_swap]. constructor. apply perm_swap.
Defined.

(** C5.  When anything raises inside the [try] block of [get_target_count], the
    handler logs an error record and the function returns 0, whatever had
    been added to [total] before; the exception does not reach the caller. *)
Theorem get_target_count_failure_is_zero ssm ec2 rg window_id e :
  snd (get_target_count_body ssm ec2 rg window_id) = Raise e ->
  get_target_count ssm ec2 rg window_id =
  (Log INFO "Resolving target count for MW"
     :: fst (get_target_count_body ssm ec2 rg window_id)
     ++ [Log ERROR "Failed resolving target count for MW"],
   Ok 0).
Proof.
  intros H. unfold get_target_count.
  destruct (get_target_count_body ssm ec2 rg window_id) as [t o].
  cbn in H. subst o. reflexivity.
Qed.

(** The first MW target has added 2 to [total] when the second page of the
    lookup of the second one fails. *)
Lemma get_target_count_failure_is_zero_witness :
  get_target_count (ssm_with_targets [listed_target; tag_target])
    failing_second_page_ec2 empty_rg "mw-1" =
  ([Log INFO "Resolving target count for MW";
    SsmDescribeMaintenanceWindowTargets "mw-1";
    Log DEBUG "InstanceIds target";
    Ec2DescribeInstances [mk_filter "tag:Env" ["prod"]];
    Log ERROR "Failed resolving target count for MW"],
   Ok 0).
Proof.
  apply (get_target_count_failure_is_zero (ssm_with_targets [listed_target; tag_target])
           failing_second_page_ec2 empty_rg "mw-1" (ClientError "RequestLimitExceeded")).
  vm_compute. reflexivity.
Defined.

(** C2 does not hold of the code.  A window whose only rule names the group
    [web], which has two instance members, counts 0: the debug message of
    the resource-group branch reads [group_name] before the [for] statement
    binds it, the [UnboundLocalError] is caught by the handler of
    [get_target_count], and the group is never paginated. *)
Theorem resource_group_window_counts_zero :
  get_target_count (ssm_with_targets [group_target]) one_instance_ec2 web_group_rg
    "mw-1" =
  ([Log INFO "Resolving target count for MW";
    SsmDescribeMaintenanceWindowTargets "mw-1";
    Log ERROR "Failed resolving target count for MW"],
   Ok 0)
  /\ length (group_member_ids web_group_rg "web") = 2.
Proof. split; vm_compute; reflexivity. Qed.

Lemma group_rule_counts_zero ssm ec2 rg window_id targets :
  describe_maintenance_window_targets ssm window_id = inr targets ->
  existsb (fun t => existsb is_group_rule (rules_of t)) targets = true ->
  snd (get_target_count ssm ec2 rg window_id) = Ok 0.
Proof.
  intros Hd H. rewrite get_target_count_outcome, Hd. clear Hd.
  enough (Ht : forall acc, exists e, targets_total ec2 targets acc = inl e)
    by (destruct (Ht 0) as [e ->]; reflexivity).
  induction targets as [|t targets IH]; [discriminate H|].
  intros acc. cbn [existsb targets_total] in *.
  destruct (existsb is_group_rule (rules_of t)); [eauto|].
  destruct (tag_instances ec2 _); [eauto|]. apply IH. exact H.
Qed.

Lemma head_insert_execution x l :
  insert_execution x l !! 0 =
  match l !! 0 with
  | Some y => if (StartTime x <? StartTime y)%Z then Some y else Some x
  | None => Some x
  end.
Proof.
  destruct l as [|y l]; cbn [insert_execution]; [reflexivity|].
  cbn [lookup list_lookup]. destruct (StartTime x <? StartTime y)%Z; reflexivity.
Qed.

Lemma sort_executions_head l :
  l <> [] ->
  exists i e, sort_executions l !! 0 = Some e /\ latest_first l i e.
Proof.
  induction l as [|x l IH]; [done|]. intros _.
  cbn [sort_executions]. rewrite head_insert_execution.
  destruct l as [|x' l'].
  - exists 0, x. split; [reflexivity|]. split; [reflexivity|]. split.
    + intros [|j] e' H; [|done]. injection H as <-. lia.
    + intros j e' Hj. lia.
  - destruct IH as (i & y & Hy & Hi & Hmax & Hbefore); [done|].
    rewrite Hy. destruct (StartTime x <? StartTime y)%Z eqn:Hlt.
    + apply Z.ltb_lt in Hlt. exists (S i), y. split; [reflexivity|]. split; [exact Hi|].
      split.
      * intros [|j] e' H.
        -- injection H as <-. lia.
        -- exact (Hmax j e' H).
      * intros [|j] e' Hj H.
        -- injection H as <-. lia.
        -- apply (Hbefore j e'); [lia|exact H].
    + apply Z.ltb_ge in Hlt. exists 0, x. split; [reflexivity|]. split; [reflexivity|].
      split.
      * intros [|j] e' H.
        -- injection H as <-. lia.
        -- specialize (Hmax j e' H). lia.
      * intros j e' Hj. lia.
Qed.

(** C4.  A window id that does not start with [mw-] gives (0, 0) at once, and
    so does a window without executions.  Otherwise the counts are those of
    the execution with the greatest start time, the first such one in the
    order of the response to the lookup of at most 10 executions. *)
Theorem get_patch_status_counts_selects_latest json_loads ssm window_id :
  (String.prefix "mw-" window_id = false ->
   get_patch_status_counts json_loads ssm window_id =
   ([Log DEBUG "Starting patch status evaluation";
     Log WARNING "Invalid MaintenanceWindowId skipped"], Ok (Some (0, 0))))
  /\ (forall response,
        String.prefix "mw-" window_id = true ->
        describe_maintenance_window_executions ssm window_id 10 = inr response ->
        default [] response = [] ->
        get_patch_status_counts json_loads ssm window_id =
        ([Log DEBUG "Starting patch status evaluation";
          Log INFO "Processing MaintenanceWindowId";
          SsmDescribeMaintenanceWindowExecutions window_id 10;
          Log INFO "No executions found"], Ok (Some (0, 0))))
  /\ (forall response,
        String.prefix "mw-" window_id = true ->
        describe_maintenance_window_executions ssm window_id 10 = inr response ->
        default [] response <> [] ->
        exists i e,
          latest_first (default [] response) i e
          /\ snd (get_patch_status_counts json_loads ssm window_id) =
             after_try (snd (tally_execution json_loads ssm (WindowExecutionId e)))
          /\ exists rest,
               fst (get_patch_status_counts json_loads ssm window_id) =
               [Log DEBUG "Starting patch status evaluation";
                Log INFO "Processing MaintenanceWindowId";
                SsmDescribeMaintenanceWindowExecutions window_id 10]
               ++ fst (tally_execution json_loads ssm (WindowExecutionId e)) ++ rest
               /\ Forall (fun ev => exists lvl msg, ev = Log lvl msg) rest).
Proof.
  split; [|split].
  - intros H. unfold get_patch_status_counts, get_patch_status_counts_body.
    rewrite H. reflexivity.
  - intros response H Hd He. unfold get_patch_status_counts, get_patch_status_counts_body.
    rewrite H, Hd. cbn [negb request]. cbn. rewrite He. reflexivity.
  - intros response H Hd He.
    destruct (sort_executions_head _ He) as (i & e & Hhead & Hlatest).
    exists i, e. split; [exact Hlatest|].
    unfold get_patch_status_counts, get_patch_status_counts_body.
    rewrite H, Hd. destruct response as [[|x l]|]; try done.
    cbn [default from_option id] in *.
    remember (tally_execution json_loads ssm) as tally eqn:Htally.
    remember sort_executions as sorted eqn:Hsorted.
    cbn -[lookup]. unfold index. rewrite Hhead. cbn. clear Htally Hsorted.
    destruct (tally (WindowExecutionId e)) as [t [c|x0|code]];
      cbn; (split; [reflexivity|]).
    + exists []. rewrite !app_nil_r. split; [reflexivity|constructor].
    + eexists. split; [reflexivity|].
      repeat constructor. eauto.
    + exists []. rewrite !app_nil_r. split; [reflexivity|constructor].
Qed.

Lemma tally_of_nil c : tally_of c [] = c.
Proof. destruct c. unfold tally_of. cbn. f_equal; lia. Qed.

Lemma tally_of_app c rs rs' : tally_of c (rs ++ rs') = tally_of (tally_of c rs) rs'.
Proof.
  unfold tally_of. cbn [fst snd]. rewrite !List.filter_app, !length_app.
  f_equal; lia.
Qed.

Lemma tally_command_invocation_one c r :
  snd (tally_command_invocation c r) = Ok (tally_of c [r]).
Proof.
  unfold tally_command_invocation, tally_of, is_success, is_failure.
  rewrite snd_bind. cbn [log emit snd obind List.filter].
  destruct c as [s0 f0]. destruct (cmd_Status r) as [s|].
  - destruct (String.eqb s "Success") eqn:Hs.
    + apply String.eqb_eq in Hs. subst s. cbn. do 2 f_equal; lia.
    + destruct (existsb (String.eqb s) failure_statuses); cbn; do 2 f_equal; lia.
  - cbn. do 2 f_equal; lia.
Qed.

Section Tallies.

Context {A : Type} (step : counts -> A -> M counts)
  (examined : A -> outcome (list command_invocation)).
Hypothesis step_tallies :
  forall c x, snd (step c x) = obind (examined x) (fun rs => Ok (tally_of c rs)).

Lemma for_each_tallies l c :
  snd (for_each step l c) = obind (gather examined l) (fun rs => Ok (tally_of c rs)).
Proof.
  revert c. induction l as [|x l IH]; intros c; cbn [for_each gather].
  - cbn. rewrite tally_of_nil. reflexivity.
  - rewrite snd_bind, step_tallies. destruct (examined x) as [rs|e|code]; cbn [obind];
      try reflexivity.
    rewrite IH. destruct (gather examined l); cbn [obind]; try reflexivity.
    rewrite tally_of_app. reflexivity.
Qed.

Lemma for_pages_tallies pages c :
  snd (for_pages step pages c) =
  obind (gather_pages examined pages) (fun rs => Ok (tally_of c rs)).
Proof.
  revert c. induction pages as [|[e|p] pages IH]; intros c; cbn [for_pages gather_pages].
  - cbn. rewrite tally_of_nil. reflexivity.
  - reflexivity.
  - rewrite snd_bind, step_tallies. destruct (examined p) as [rs|e|code]; cbn [obind];
      try reflexivity.
    rewrite IH. destruct (gather_pages examined pages); cbn [obind]; try reflexivity.
    rewrite tally_of_app. reflexivity.
Qed.

End Tallies.

Lemma tally_command_page_tallies c p :
  snd (tally_command_page c p) = obind (examined_on_page p) (fun rs => Ok (tally_of c rs)).
Proof.
  unfold tally_command_page, examined_on_page. cbn [obind].
  generalize (default [] (CommandInvocations p)). intros l. revert c.
  induction l as [|r l IH]; intros c; cbn [for_each].
  - cbn. rewrite tally_of_nil. reflexivity.
  - rewrite snd_bind, tally_command_invocation_one. cbn [obind]. rewrite IH.
    rewrite <- tally_of_app. reflexivity.
Qed.

Lemma invocation_step_tallies json_loads ssm c inv :
  snd (invocation_step json_loads ssm c inv) =
  obind (examined_by_invocation json_loads ssm inv) (fun rs => Ok (tally_of c rs)).
Proof.
  unfold invocation_step, examined_by_invocation. rewrite snd_bind.
  destruct (snd (read_operation json_loads inv)) as [operation|e|code]; cbn [obind];
    try reflexivity.
  rewrite snd_bind. cbn [log emit snd obind]. rewrite snd_bind.
  destruct (snd (py_in "Install" operation)) as [[|]|e|code]; cbn [obind negb];
    try reflexivity.
  - destruct (inv_ExecutionId inv) as [[|a rest]|].
    + cbn. rewrite tally_of_nil. reflexivity.
    + rewrite snd_bind. cbn [log emit snd obind]. rewrite snd_bind. cbn [emit snd obind].
      apply for_pages_tallies, tally_command_page_tallies.
    + cbn. rewrite tally_of_nil. reflexivity.
  - cbn. rewrite tally_of_nil. reflexivity.
Qed.

Lemma task_step_tallies json_loads ssm execution_id c t :
  snd (task_step json_loads ssm execution_id c t) =
  obind (examined_by_task json_loads ssm execution_id t)
    (fun rs => Ok (tally_of c rs)).
Proof.
  unfold task_step, examined_by_task. rewrite snd_bind. cbn [log emit snd obind].
  destruct (negb (bool_decide (TaskArn t = Some "AWS-RunPatchBaseline"))).
  - cbn. rewrite tally_of_nil. reflexivity.
  - rewrite snd_bind. cbn [emit snd obind].
    apply for_pages_tallies. intros c' page. unfold invocation_page_step.
    rewrite snd_bind. cbn [log emit snd obind].
    apply for_each_tallies, invocation_step_tallies.
Qed.

Lemma tally_execution_tallies json_loads ssm execution_id :
  snd (tally_execution json_loads ssm execution_id) =
  obind (examined_results json_loads ssm execution_id)
    (fun rs => Ok (length (List.filter is_success rs), length (List.filter is_failure rs))).
Proof.
  unfold tally_execution, examined_results. rewrite snd_bind. cbn [log emit snd obind].
  rewrite snd_bind.
  destruct (describe_maintenance_window_execution_tasks ssm execution_id) as [e|tasks];
    cbn [request snd obind to_outcome]; [reflexivity|].
  rewrite snd_bind. cbn [log emit snd obind]. rewrite snd_bind.
  rewrite (for_each_tallies _ _ (task_step_tallies json_loads ssm execution_id)).
  destruct (gather _ _); cbn [obind]; try reflexivity.
Qed.

Section Quiet.

Variable P : event -> bool.

Lemma quiet_ret {A} (a : A) : quiet P (ret a).
Proof. reflexivity. Qed.

Lemma quiet_raise {A} e : quiet P (@raise A e).
Proof. reflexivity. Qed.

Lemma quiet_emit ev : P ev = false -> quiet P (emit ev).
Proof. intros H. unfold quiet. cbn. rewrite H. reflexivity. Qed.

Lemma quiet_log lvl msg : P (Log lvl msg) = false -> quiet P (log lvl msg).
Proof. apply quiet_emit. Qed.

Lemma quiet_request {A} ev (r : result A) : P ev = false -> quiet P (request ev r).
Proof. intros H. unfold quiet. destruct r; cbn; rewrite H; reflexivity. Qed.

Lemma quiet_bind {A B} (m : M A) (k : A -> M B) :
  quiet P m -> (forall a, quiet P (k a)) -> quiet P (bind m k).
Proof.
  unfold quiet. intros Hm Hk. rewrite fst_bind, forallb_app, Hm.
  destruct (snd m); [apply Hk|reflexivity|reflexivity].
Qed.

Lemma quiet_try_except {A} (m : M A) (h : exn -> M A) :
  quiet P m -> (forall e, quiet P (h e)) -> quiet P (try_except m h).
Proof.
  unfold quiet. intros Hm Hh. rewrite fst_try_except, forallb_app, Hm.
  destruct (snd m); [reflexivity|apply Hh|reflexivity].
Qed.

Lemma quiet_for_each {S A} (body : S -> A -> M S) l s :
  (forall s x, quiet P (body s x)) -> quiet P (for_each body l s).
Proof.
  intros H. revert s. induction l as [|x l IH]; intros s; cbn [for_each].
  - apply quiet_ret.
  - apply quiet_bind; [apply H|exact IH].
Qed.

Lemma quiet_for_pages {S A} (body : S -> A -> M S) pages s :
  (forall s x, quiet P (body s x)) -> quiet P (for_pages body pages s).
Proof.
  intros H. revert s. induction pages as [|[e|p] pages IH]; intros s; cbn [for_pages].
  - apply quiet_ret.
  - apply quiet_raise.
  - apply quiet_bind; [apply H|exact IH].
Qed.

End Quiet.

Create HintDb quiet.
#[local] Hint Resolve quiet_ret quiet_raise quiet_bind quiet_try_except quiet_for_each
  quiet_for_pages : quiet.
#[local] Hint Extern 1 (quiet _ (emit _)) => (apply quiet_emit; reflexivity) : quiet.
#[local] Hint Extern 1 (quiet _ (log _ _)) => (apply quiet_log; reflexivity) : quiet.
#[local] Hint Extern 1 (quiet _ (request _ _)) => (apply quiet_request; reflexivity) : quiet.
#[local] Hint Extern 2 (quiet _ (if ?b then _ else _)) => destruct b : quiet.
#[local] Hint Extern 2 (quiet _ (match ?x with _ => _ end)) => destruct x : quiet.


Lemma read_operation_quiet P json_loads inv :
  (forall lvl msg, P (Log lvl msg) = false) -> quiet P (read_operation json_loads inv).
Proof.
  intros HP. unfold read_operation.
  destruct (String.eqb _ _); [apply quiet_ret|].
  destruct (json_loads _) as [parsed|].
  - unfold py_get. apply quiet_bind; [destruct parsed; auto with quiet|].
    intros p. destruct p; auto with quiet.
  - apply quiet_bind; [apply quiet_log, HP|intros; apply quiet_ret].
Qed.

Lemma py_in_quiet P needle v : quiet P (py_in needle v).
Proof. destruct v; reflexivity. Qed.

Lemma status_resolver_quiet json_loads ssm window_id :
  quiet is_sts (get_patch_status_counts json_loads ssm window_id).
Proof.
  unfold get_patch_status_counts, get_patch_status_counts_body, tally_execution, index.
  apply quiet_bind; [auto with quiet|]. intros _.
  apply quiet_try_except; [|auto with quiet].
  apply quiet_bind; [|auto with quiet].
  destruct (negb _); [auto with quiet|].
  apply quiet_bind; [auto with quiet|]. intros _.
  apply quiet_bind; [auto with quiet|]. intros response.
  destruct (default [] response); [auto with quiet|].
  apply quiet_bind; [destruct (_ !! _); auto with quiet|]. intros latest.
  apply quiet_bind; [auto with quiet|]. intros _.
  apply quiet_bind; [auto with quiet|]. intros tasks.
  apply quiet_bind; [auto with quiet|]. intros _.
  apply quiet_bind; [|auto with quiet].
  apply quiet_for_each. intros c t. unfold task_step.
  apply quiet_bind; [auto with quiet|]. intros _.
  destruct (negb _); [auto with quiet|].
  apply quiet_bind; [auto with quiet|]. intros _.
  apply quiet_for_pages. intros c' page. unfold invocation_page_step.
  apply quiet_bind; [auto with quiet|]. intros _.
  apply quiet_for_each. intros c'' inv. unfold invocation_step.
  apply quiet_bind; [apply read_operation_quiet; reflexivity|]. intros operation.
  apply quiet_bind; [auto with quiet|]. intros _.
  apply quiet_bind; [apply py_in_quiet|]. intros has_install.
  destruct (negb has_install); [auto with quiet|].
  destruct (inv_ExecutionId inv) as [[|a rest]|]; [auto with quiet| |auto with quiet].
  apply quiet_bind; [auto with quiet|]. intros _.
  apply quiet_bind; [auto with quiet|]. intros _.
  apply quiet_for_pages. intros c3 cmd_page. unfold tally_command_page.
  apply quiet_for_each. intros c4 cmd_inv. unfold tally_command_invocation.
  apply quiet_bind; [auto with quiet|]. intros _.
  destruct (cmd_Status cmd_inv) as [s|]; [|auto with quiet].
  destruct (String.eqb s "Success"); [auto with quiet|].
  destruct (existsb _ _); auto with quiet.
Qed.

Lemma read_operation_logs json_loads inv :
  forallb is_log (fst (read_operation json_loads inv)) = true.
Proof.
  unfold read_operation. destruct (String.eqb _ _); [reflexivity|].
  destruct (json_loads _) as [parsed|]; [|reflexivity].
  rewrite fst_bind. destruct parsed; try reflexivity.
  cbn [py_get ret fst snd app]. destruct (default _ _); reflexivity.
Qed.

(** An invocation that is skipped: the counters stay and nothing is asked
    of AWS. *)
Lemma invocation_step_skips json_loads ssm c inv operation :
  snd (read_operation json_loads inv) = Ok operation ->
  snd (py_in "Install" operation) = Ok false ->
  snd (invocation_step json_loads ssm c inv) = Ok c
  /\ forallb is_log (fst (invocation_step json_loads ssm c inv)) = true.
Proof.
  intros Hop Hin. unfold invocation_step. split.
  - rewrite snd_bind, Hop. cbn [obind]. rewrite snd_bind. cbn [log emit snd obind].
    rewrite snd_bind, Hin. reflexivity.
  - rewrite fst_bind, forallb_app, read_operation_logs, Hop. cbn [andb].
    rewrite fst_bind. cbn [log emit fst snd app forallb is_log andb].
    rewrite fst_bind. destruct (py_in "Install" operation) as [t o] eqn:E.
    cbn in Hin. subst o. cbn [fst snd]. rewrite forallb_app.
    assert (Ht : t = []) by (destruct operation; inversion E; reflexivity).
    subst t. reflexivity.
Qed.

(** C6.  An invocation changes the counters only if ["Install"] is in its
    operation; an operation of [["Scan"]] leaves them as they are and asks
    nothing of AWS, and so does a payload that [json.loads] rejects, whose
    operation is taken to be the empty list. *)
Theorem only_install_invocations_count json_loads ssm c inv :
  (forall c',
     snd (invocation_step json_loads ssm c inv) = Ok c' -> c' <> c ->
     exists operation,
       snd (read_operation json_loads inv) = Ok operation
       /\ snd (py_in "Install" operation) = Ok true)
  /\ (snd (read_operation json_loads inv) = Ok (JArray [JString "Scan"]) ->
      snd (invocation_step json_loads ssm c inv) = Ok c
      /\ forallb is_log (fst (invocation_step json_loads ssm c inv)) = true)
  /\ (forall raw,
        inv_Parameters inv = Some raw -> raw <> "" -> json_loads raw = None ->
        snd (read_operation json_loads inv) = Ok (JArray [])
        /\ snd (invocation_step json_loads ssm c inv) = Ok c
        /\ forallb is_log (fst (invocation_step json_loads ssm c inv)) = true).
Proof.
  split; [|split].
  - intros c' Hstep Hne. unfold invocation_step in Hstep. rewrite snd_bind in Hstep.
    destruct (snd (read_operation json_loads inv)) as [operation|e|code];
      cbn [obind] in Hstep; try discriminate Hstep.
    exists operation. split; [reflexivity|].
    rewrite snd_bind in Hstep. cbn [log emit snd obind] in Hstep.
    rewrite snd_bind in Hstep.
    destruct (snd (py_in "Install" operation)) as [[|]|e|code]; cbn [obind] in Hstep;
      try discriminate Hstep; [reflexivity|].
    cbn in Hstep. congruence.
  - intros Hop. apply (invocation_step_skips _ _ _ _ _ Hop). reflexivity.
  - intros raw Hraw Hne Hparse.
    assert (Hop : snd (read_operation json_loads inv) = Ok (JArray [])).
    { unfold read_operation. rewrite Hraw. cbn [default from_option id].
      destruct (String.eqb raw "") eqn:He; [apply String.eqb_eq in He; done|].
      rewrite Hparse. reflexivity. }
    split; [exact Hop|]. apply (invocation_step_skips _ _ _ _ _ Hop). reflexivity.
Qed.

(** What [get_patch_status_counts] returns, in closed form. *)
Lemma get_patch_status_counts_outcome json_loads ssm window_id :
  snd (get_patch_status_counts json_loads ssm window_id) =
  if negb (String.prefix "mw-" window_id) then Ok (Some (0, 0))
  else
    match describe_maintenance_window_executions ssm window_id 10 with
    | inl _ => Ok None
    | inr response =>
        match default [] response with
        | [] => Ok (Some (0, 0))
        | (_ :: _) as executions =>
            match sort_executions executions !! 0 with
            | Some latest =>
                after_try (snd (tally_execution json_loads ssm (WindowExecutionId latest)))
            | None => Ok None
            end
        end
    end.
Proof.
  unfold get_patch_status_counts. rewrite snd_bind. cbn [log emit snd obind].
  rewrite snd_try_except, snd_bind. unfold get_patch_status_counts_body.
  destruct (negb (String.prefix "mw-" window_id)); [reflexivity|].
  rewrite snd_bind. cbn [log emit snd obind]. rewrite snd_bind.
  destruct (describe_maintenance_window_executions ssm window_id 10) as [e|response];
    cbn [request snd obind]; [reflexivity|].
  cbv zeta. destruct (default [] response) as [|x l]; [reflexivity|].
  rewrite snd_bind. unfold index.
  destruct (sort_executions (x :: l) !! 0) as [latest|]; cbn [ret raise snd obind];
    [|reflexivity].
  destruct (snd (tally_execution json_loads ssm (WindowExecutionId latest)));
    reflexivity.
Qed.

Lemma returned_counts_are_tallies json_loads ssm window_id success failure :
  snd (get_patch_status_counts json_loads ssm window_id) = Ok (Some (success, failure)) ->
  exists rs,
    (rs = [] \/ exists execution_id, examined_results json_loads ssm execution_id = Ok rs)
    /\ success = length (List.filter is_success rs)
    /\ failure = length (List.filter is_failure rs).
Proof.
  rewrite get_patch_status_counts_outcome.
  destruct (negb _); [intros [= <- <-]; exists []; auto|].
  destruct (describe_maintenance_window_executions ssm window_id 10) as [e|response];
    [discriminate|].
  destruct (default [] response) as [|x l]; [intros [= <- <-]; exists []; auto|].
  destruct (sort_executions (x :: l) !! 0) as [latest|]; [|discriminate].
  rewrite tally_execution_tallies.
  destruct (examined_results json_loads ssm (WindowExecutionId latest)) as [rs|e|code] eqn:E;
    cbn [obind after_try]; try discriminate.
  intros [= <- <-]. exists rs. eauto.
Qed.

(** C7.  A command result of status [Success] adds one to the success counter,
    one of status [Failed], [TimedOut], [Cancelled] or [ExecutionTimedOut]
    adds one to the failure counter, any other leaves both; and the counters
    of an execution, and so the pair that [get_patch_status_counts] returns,
    are the numbers of results of these two classes among the results
    examined. *)
Theorem command_results_are_classified json_loads ssm execution_id :
  (forall c r,
     cmd_Status r = Some "Success" ->
     snd (tally_command_invocation c r) = Ok (fst c + 1, snd c))
  /\ (forall c r s,
        In s ["Failed"; "TimedOut"; "Cancelled"; "ExecutionTimedOut"] ->
        cmd_Status r = Some s ->
        snd (tally_command_invocation c r) = Ok (fst c, snd c + 1))
  /\ (forall c r,
        ~ In (cmd_Status r)
            (map Some ["Success"; "Failed"; "TimedOut"; "Cancelled"; "ExecutionTimedOut"]) ->
        snd (tally_command_invocation c r) = Ok c)
  /\ snd (tally_execution json_loads ssm execution_id) =
     obind (examined_results json_loads ssm execution_id)
       (fun rs => Ok (length (List.filter is_success rs),
                      length (List.filter is_failure rs)))
  /\ (forall window_id success failure,
        snd (get_patch_status_counts json_loads ssm window_id) =
        Ok (Some (success, failure)) ->
        exists rs,
          (rs = [] \/
           exists id, examined_results json_loads ssm id = Ok rs)
          /\ success = length (List.filter is_success rs)
          /\ failure = length (List.filter is_failure rs)).
Proof.
  split; [|split; [|split; [|split]]].
  - intros c r H. unfold tally_command_invocation. rewrite H. reflexivity.
  - intros c r s Hs H. unfold tally_command_invocation. rewrite H.
    cbn in Hs. destruct Hs as [<-|[<-|[<-|[<-|[]]]]]; reflexivity.
  - intros c r H. unfold tally_command_invocation. rewrite snd_bind.
    cbn [log emit snd obind]. destruct (cmd_Status r) as [s|]; [|reflexivity].
    destruct (String.eqb s "Success") eqn:Hs.
    { apply String.eqb_eq in Hs. subst s. exfalso. apply H. cbn. auto. }
    destruct (existsb (String.eqb s) failure_statuses) eqn:Hf; [|reflexivity].
    exfalso. apply H. apply existsb_exists in Hf. destruct Hf as (x & Hx & Hsx).
    apply String.eqb_eq in Hsx. subst x. right. apply in_map. exact Hx.
  - apply tally_execution_tallies.
  - apply returned_counts_are_tallies.
Qed.

Lemma calls_app P t t' : calls P (t ++ t') = calls P t + calls P t'.
Proof. unfold calls. rewrite List.filter_app, length_app. reflexivity. Qed.

Lemma quiet_calls {A} P (m : M A) : quiet P m -> calls P (fst m) = 0.
Proof.
  unfold quiet, calls. induction (fst m) as [|ev t IH]; cbn; [reflexivity|].
  destruct (P ev); cbn; [discriminate|exact IH].
Qed.

Lemma must_assume_spec c k account_id role_name region :
  cache_holds c k ->
  must_assume c account_id role_name region =
  if decide (k = Some (account_id, role_name, region)) then false else true.
Proof.
  unfold must_assume. destruct k as [[[a r] g]|]; cbn [cache_holds].
  - intros ([s Hs] & Ha & Hr & Hg). rewrite Hs, Ha, Hr, Hg.
    repeat case_bool_decide; case_decide; try reflexivity; simplify_eq; done.
  - intros Hs. rewrite Hs.
    repeat case_bool_decide; case_decide; try reflexivity; simplify_eq; done.
Qed.

Lemma assume_role_calls cloud account_id role_name region :
  calls is_sts (fst (assume_role cloud account_id role_name region)) = 1.
Proof.
  unfold assume_role. destruct (sts_assume_role cloud _ _); reflexivity.
Qed.

Lemma post_patch_row_step_calls json_loads cloud c k rows row st :
  cache_holds c k ->
  snd (post_patch_row_step json_loads cloud (c, rows) row) = Ok st ->
  cache_holds (fst st) (Some (context_of row))
  /\ calls is_sts (fst (post_patch_row_step json_loads cloud (c, rows) row)) =
     if decide (k = Some (context_of row)) then 0 else 1.
Proof.
  intros Hc. unfold post_patch_row_step. cbn [fst snd].
  rewrite (must_assume_spec c k _ _ _ Hc). fold (context_of row).
  set (rest := fun c' : cache => bind (the_session c') _).
  assert (Hrest : forall c', calls is_sts (fst (rest c')) = 0).
  { intros c'. apply quiet_calls. unfold rest, the_session, unpack_counts.
    apply quiet_bind; [destruct (cached_session c'); auto with quiet|]. intros s.
    apply quiet_bind; [apply status_resolver_quiet|]. intros r.
    apply quiet_bind; [destruct r; auto with quiet|]. intros sf.
    auto with quiet. }
  assert (Hcache : forall c' st', snd (rest c') = Ok st' -> fst st' = c').
  { intros c' st'. unfold rest. rewrite snd_bind.
    destruct (snd (the_session c')); cbn [obind]; try discriminate.
    rewrite snd_bind. destruct (snd (get_patch_status_counts _ _ _)); cbn [obind];
      try discriminate.
    rewrite snd_bind. destruct (snd (unpack_counts _)); cbn [obind]; try discriminate.
    rewrite snd_bind. cbn. intros [= <-]. reflexivity. }
  clearbody rest. rewrite snd_bind, fst_bind, calls_app.
  repeat case_decide; try done.
  - cbn [ret fst snd obind]. intros Hst.
    rewrite (Hcache _ _ Hst), Hrest. split; [|reflexivity]. subst k. exact Hc.
  - rewrite snd_bind, fst_bind, calls_app, assume_role_calls.
    destruct (snd (assume_role cloud _ _ _)) as [s|e|code]; cbn [obind];
      try discriminate.
    cbn [ret fst snd]. intros Hst.
    rewrite (Hcache _ _ Hst), Hrest. split; [|reflexivity].
    unfold context_of. cbn. eauto.
Qed.

Lemma post_patch_loop_calls json_loads cloud l c k rows st :
  cache_holds c k ->
  snd (for_each (post_patch_row_step json_loads cloud) l (c, rows)) = Ok st ->
  calls is_sts (fst (for_each (post_patch_row_step json_loads cloud) l (c, rows))) =
  run_starts k (map context_of l).
Proof.
  revert c k rows. induction l as [|row l IH]; intros c k rows Hc; cbn [for_each map run_starts].
  - reflexivity.
  - rewrite snd_bind, fst_bind, calls_app.
    destruct (snd (post_patch_row_step json_loads cloud (c, rows) row)) as [st1|e|code] eqn:E;
      cbn [obind]; try discriminate.
    intros H. destruct (post_patch_row_step_calls _ _ _ _ _ _ _ Hc E) as [Hc1 ->].
    destruct st1 as [c1 rows1]. cbn [fst] in Hc1.
    rewrite (IH c1 _ rows1 Hc1 H). reflexivity.
Qed.

(** C8.  When the post-patch loop goes through all its rows, [assume_role] has
    been called once per maximal run of consecutive rows with the same
    account, role and region: three times for the contexts A, A, B, A. *)
Theorem assume_role_once_per_run json_loads cloud pre_patch_rows st :
  snd (post_patch_loop json_loads cloud pre_patch_rows) = Ok st ->
  calls is_sts (fst (post_patch_loop json_loads cloud pre_patch_rows)) =
  runs (map context_of pre_patch_rows)
  /\ (forall a b,
        a <> b -> map context_of pre_patch_rows = [a; a; b; a] ->
        calls is_sts (fst (post_patch_loop json_loads cloud pre_patch_rows)) = 3).
Proof.
  intros H. unfold post_patch_loop in *.
  assert (Hruns := post_patch_loop_calls json_loads cloud pre_patch_rows empty_cache None
                     [] st eq_refl H).
  split; [exact Hruns|]. intros a b Hab Hctx. rewrite Hruns, Hctx. cbn.
  repeat case_decide; simplify_eq; reflexivity.
Qed.

(** C3 does not hold of the code.  The window [mw-bad], whose lookup raises,
    makes [get_patch_status_counts] log the error and return [None]; the
    unpacking of that [None] in the loop raises [TypeError], the row after it
    is never looked up, and [post_patch_function] exits with code 1 without
    writing the report or sending the mail. *)
Theorem failed_status_lookup_ends_the_phase :
  get_patch_status_counts example_json_loads example_ssm "mw-bad" =
  ([Log DEBUG "Starting patch status evaluation";
    Log INFO "Processing MaintenanceWindowId";
    SsmDescribeMaintenanceWindowExecutions "mw-bad" 10;
    Log ERROR "Unhandled exception while evaluating patch status"], Ok None)
  /\ snd (post_patch_loop example_json_loads example_cloud rows_with_bad_window) =
     Raise (TypeError "cannot unpack non-iterable NoneType object")
  /\ calls (asks_executions_of "mw-3")
       (fst (post_patch_loop example_json_loads example_cloud rows_with_bad_window)) = 0
  /\ snd (post_patch_function example_json_loads example_cloud
            (example_store rows_with_bad_window)) = Exit 1
  /\ calls is_put_or_send
       (fst (post_patch_function example_json_loads example_cloud
               (example_store rows_with_bad_window))) = 0.
Proof. vm_compute. repeat split; reflexivity. Qed.

(** A row whose status lookup gives no result ends the loop. *)
Lemma unanswered_row_raises json_loads cloud c rows row :
  (forall s, snd (get_patch_status_counts json_loads (client_ssm cloud s)
                    (csv_MaintenanceWindowId row)) = Ok None) ->
  exists e, snd (post_patch_row_step json_loads cloud (c, rows) row) = Raise e.
Proof.
  intros Hnone. unfold post_patch_row_step. cbn [fst snd]. rewrite snd_bind.
  destruct (must_assume c _ _ _).
  - rewrite snd_bind. unfold assume_role. rewrite snd_bind. cbn [log emit snd obind].
    rewrite snd_try_except, snd_bind.
    destruct (sts_assume_role cloud _ _) as [e|creds]; cbn [request snd obind].
    + rewrite snd_bind. cbn. eauto.
    + cbn [ret snd obind the_session cached_session]. rewrite snd_bind. cbn [ret snd obind].
      rewrite snd_bind, Hnone. cbn. eauto.
  - cbn [ret snd obind]. rewrite snd_bind. unfold the_session.
    destruct (cached_session c) as [s|]; cbn [ret raise snd obind]; [|eauto].
    rewrite snd_bind, Hnone. cbn. eauto.
Qed.

Lemma runs_today_logs fromisoformat now_utc t :
  forallb is_log (fst (runs_today fromisoformat now_utc t)) = true.
Proof.
  unfold runs_today, runs_today_body. destruct t as [s|aware micros]; cbn.
  - destruct (fromisoformat _) as [[aware micros]|]; reflexivity.
  - reflexivity.
Qed.

Lemma runs_today_returns fromisoformat now_utc t :
  exists b, snd (runs_today fromisoformat now_utc t) = Ok b.
Proof.
  unfold runs_today, runs_today_body. destruct t as [s|aware micros]; cbn.
  - destruct (fromisoformat _) as [[aware micros]|]; cbn; eauto.
  - eauto.
Qed.

(** C10.  [window_step] adds a row only for a window that has a
    [NextExecutionTime], whose name starts with [mmpatching] and that
    [runs_today] accepts; a window that fails one of the three leaves the
    rows as they are and sends no request. *)
Theorem window_step_filters fromisoformat now_utc ssm ec2 rg
    account_id region role_name rows mw :
  (forall rows',
     snd (window_step fromisoformat now_utc ssm ec2 rg account_id region role_name
            rows mw) = Ok rows' ->
     rows' <> rows ->
     exists t name,
       NextExecutionTime mw = Some t
       /\ window_Name mw = Some name
       /\ String.prefix "mmpatching" name = true
       /\ snd (runs_today fromisoformat now_utc t) = Ok true)
  /\ (NextExecutionTime mw = None
      \/ String.prefix "mmpatching" (default "" (window_Name mw)) = false
      \/ (exists t, NextExecutionTime mw = Some t
                    /\ snd (runs_today fromisoformat now_utc t) = Ok false) ->
      snd (window_step fromisoformat now_utc ssm ec2 rg account_id region role_name
             rows mw) = Ok rows
      /\ forallb is_log
           (fst (window_step fromisoformat now_utc ssm ec2 rg account_id region
                   role_name rows mw)) = true).
Proof.
  unfold window_step. split.
  - intros rows'. rewrite snd_bind. cbn [log emit snd obind].
    destruct (NextExecutionTime mw) as [t|]; [|cbn; congruence].
    destruct (String.prefix "mmpatching" (default "" (window_Name mw))) eqn:Hp;
      cbn [negb]; [|cbn; congruence].
    rewrite snd_bind.
    destruct (snd (runs_today fromisoformat now_utc t)) as [[|]|e|code] eqn:Ht;
      cbn [obind]; [|cbn; congruence|discriminate|discriminate].
    intros _ _. destruct (window_Name mw) as [name|]; [|discriminate Hp].
    exists t, name. auto.
  - intros H. rewrite snd_bind, fst_bind. cbn [log emit fst snd obind app forallb is_log andb].
    destruct (NextExecutionTime mw) as [t|].
    + destruct (String.prefix "mmpatching" (default "" (window_Name mw))) eqn:Hp;
        cbn [negb]; [|split; reflexivity].
      destruct H as [H|[H|(t' & Ht' & Hf)]]; [discriminate H|discriminate H|].
      injection Ht' as <-. rewrite snd_bind, fst_bind, Hf. cbn [obind].
      rewrite forallb_app, runs_today_logs. split; reflexivity.
    + split; reflexivity.
Qed.

Lemma get_patch_status_counts_selects_latest_witness :
  get_patch_status_counts example_json_loads example_ssm "window-7" =
  ([Log DEBUG "Starting patch status evaluation";
    Log WARNING "Invalid MaintenanceWindowId skipped"], Ok (Some (0, 0)))
  /\ get_patch_status_counts example_json_loads example_ssm "mw-new" =
     ([Log DEBUG "Starting patch status evaluation";
       Log INFO "Processing MaintenanceWindowId";
       SsmDescribeMaintenanceWindowExecutions "mw-new" 10;
       Log INFO "No executions found"], Ok (Some (0, 0)))
  /\ exists i e,
       latest_first [mk_execution "e-old" 5; mk_execution "e-new" 9;
                     mk_execution "e-tie" 9] i e
       /\ snd (get_patch_status_counts example_json_loads example_ssm "mw-1") =
          after_try (snd (tally_execution example_json_loads example_ssm
                            (WindowExecutionId e)))
       /\ exists rest,
            fst (get_patch_status_counts example_json_loads example_ssm "mw-1") =
            [Log DEBUG "Starting patch status evaluation";
             Log INFO "Processing MaintenanceWindowId";
             SsmDescribeMaintenanceWindowExecutions "mw-1" 10]
            ++ fst (tally_execution example_json_loads example_ssm (WindowExecutionId e))
            ++ rest
            /\ Forall (fun ev => exists lvl msg, ev = Log lvl msg) rest.
Proof.
  destruct (get_patch_status_counts_selects_latest example_json_loads example_ssm
              "window-7") as (H1 & _ & _).
  destruct (get_patch_status_counts_selects_latest example_json_loads example_ssm
              "mw-new") as (_ & H2 & _).
  destruct (get_patch_status_counts_selects_latest example_json_loads example_ssm
              "mw-1") as (_ & _ & H3).
  split; [|split].
  - apply H1. reflexivity.
  - apply (H2 (Some [])); reflexivity.
  - apply (H3 (Some [mk_execution "e-old" 5; mk_execution "e-new" 9;
                     mk_execution "e-tie" 9])); [reflexivity|reflexivity|].
    intros H. discriminate H.
Defined.

Lemma only_install_invocations_count_witness :
  (exists operation,
     snd (read_operation example_json_loads (mk_invocation (Some "{install}") (Some "c-1")))
     = Ok operation
     /\ snd (py_in "Install" operation) = Ok true)
  /\ snd (invocation_step example_json_loads example_ssm (4, 2)
            (mk_invocation (Some "{scan}") (Some "c-2"))) = Ok (4, 2)
  /\ snd (invocation_step example_json_loads example_ssm (4, 2)
            (mk_invocation (Some "{broken") (Some "c-3"))) = Ok (4, 2).
Proof.
  split; [|split].
  - destruct (only_install_invocations_count example_json_loads example_ssm (4, 2)
                (mk_invocation (Some "{install}") (Some "c-1"))) as (H & _ & _).
    apply (H (5, 3)); [reflexivity|]. intros E. discriminate E.
  - destruct (only_install_invocations_count example_json_loads example_ssm (4, 2)
                (mk_invocation (Some "{scan}") (Some "c-2"))) as (_ & H & _).
    apply H. reflexivity.
  - destruct (only_install_invocations_count example_json_loads example_ssm (4, 2)
                (mk_invocation (Some "{broken") (Some "c-3"))) as (_ & _ & H).
    apply (H "{broken"); [reflexivity| |reflexivity]. intros E. discriminate E.
Defined.

Lemma command_results_are_classified_witness :
  snd (tally_command_invocation (4, 2) (mk_command_invocation (Some "i-1") (Some "Success")))
  = Ok (5, 2)
  /\ snd (tally_command_invocation (4, 2)
            (mk_command_invocation (Some "i-2") (Some "TimedOut"))) = Ok (4, 3)
  /\ snd (tally_command_invocation (4, 2)
            (mk_command_invocation (Some "i-3") (Some "InProgress"))) = Ok (4, 2)
  /\ snd (tally_execution example_json_loads example_ssm "e-new") = Ok (1, 1)
  /\ exists rs,
       (rs = [] \/ exists id, examined_results example_json_loads example_ssm id = Ok rs)
       /\ 1 = length (List.filter is_success rs)
       /\ 1 = length (List.filter is_failure rs).
Proof.
  destruct (command_results_are_classified example_json_loads example_ssm "e-new")
    as (H1 & H2 & H3 & H4 & H5).
  split; [|split; [|split; [|split]]].
  - apply (H1 (4, 2)). reflexivity.
  - apply (H2 (4, 2) _ "TimedOut"); [|reflexivity]. right. left. reflexivity.
  - apply (H3 (4, 2)). cbn. intros [E|[E|[E|[E|[E|[]]]]]]; discriminate E.
  - rewrite H4. vm_compute. reflexivity.
  - apply (H5 "mw-1"). vm_compute. reflexivity.
Defined.

Lemma assume_role_once_per_run_witness :
  calls is_sts (fst (post_patch_loop example_json_loads example_cloud example_rows)) =
  runs (map context_of example_rows)
  /\ calls is_sts (fst (post_patch_loop example_json_loads example_cloud example_rows)) = 3.
Proof.
  destruct (assume_role_once_per_run example_json_loads example_cloud example_rows
              (mk_cache (Some (mk_session (mk_credentials "AKIA" "secret" "token")
                                 "us-east-1"))
                 (Some "111") (Some "PatchRole") (Some "us-east-1"),
               map (fun r => mk_post_patch_row (csv_AccountId r) "us-east-1" "PatchRole"
                               (csv_MaintenanceWindowId r) "mmpatching-weekly" "2" 1 1)
                 example_rows))
    as [H1 H2].
  - vm_compute. reflexivity.
  - split; [exact H1|].
    apply (H2 ("111", "PatchRole", "us-east-1") ("222", "PatchRole", "us-east-1")).
    + intros E. discriminate E.
    + reflexivity.
Defined.

Lemma window_step_filters_witness :
  (exists t name,
     NextExecutionTime window_today = Some t
     /\ window_Name window_today = Some name
     /\ String.prefix "mmpatching" name = true
     /\ snd (runs_today example_fromisoformat example_now t) = Ok true)
  /\ snd (window_step example_fromisoformat example_now
            (ssm_with_targets [listed_target]) one_instance_ec2 empty_rg
            "111" "us-east-1" "PatchRole" [] window_other_name) = Ok []
  /\ forallb is_log
       (fst (window_step example_fromisoformat example_now
               (ssm_with_targets [listed_target]) one_instance_ec2 empty_rg
               "111" "us-east-1" "PatchRole" [] window_other_name)) = true.
Proof.
  split.
  - destruct (window_step_filters example_fromisoformat example_now
                (ssm_with_targets [listed_target]) one_instance_ec2 empty_rg
                "111" "us-east-1" "PatchRole" [] window_today) as [H _].
    apply (H [mk_report_row "111" "us-east-1" "PatchRole" "mw-1" "mmpatching-weekly" 2]).
    + vm_compute. reflexivity.
    + intros E. discriminate E.
  - destruct (window_step_filters example_fromisoformat example_now
                (ssm_with_targets [listed_target]) one_instance_ec2 empty_rg
                "111" "us-east-1" "PatchRole" [] window_other_name) as [_ H].
    apply H. right. left. reflexivity.
Defined.

(** * Further properties *)

(** ** The day filter *)



(** ** More on the target resolver *)

Lemma filter_filter_implied {A} (f g : A -> bool) (l : list A) :
  (forall x, f x = true -> g x = true) ->
  List.filter f (List.filter g l) = List.filter f l.
Proof.
  intros H. induction l as [|x l IH]; cbn [List.filter]; [reflexivity|].
  destruct (g x) eqn:Hg; cbn [List.filter].
  - destruct (f x); rewrite IH; reflexivity.
  - destruct (f x) eqn:Hf; [rewrite (H x Hf) in Hg; discriminate Hg|exact IH].
Qed.

Lemma existsb_filter_implied {A} (f g : A -> bool) (l : list A) :
  (forall x, f x = true -> g x = true) ->
  existsb f (List.filter g l) = existsb f l.
Proof.
  intros H. induction l as [|x l IH]; cbn [List.filter existsb]; [reflexivity|].
  destruct (g x) eqn:Hg; cbn [existsb].
  - rewrite IH. reflexivity.
  - destruct (f x) eqn:Hf; [rewrite (H x Hf) in Hg; discriminate Hg|exact IH].
Qed.

Lemma targets_total_without_unsupported ec2 targets targets' acc :
  Forall2 without_unsupported targets targets' ->
  targets_total ec2 targets' acc = targets_total ec2 targets acc.
Proof.
  intros H. revert acc.
  induction H as [|t t' targets targets' Ht _ IH]; intros acc; cbn [targets_total];
    [reflexivity|].
  unfold without_unsupported in Ht. rewrite Ht.
  unfold listed_instances, tag_filters_of.
  rewrite !filter_filter_implied, existsb_filter_implied.
  1:{ destruct (existsb is_group_rule (rules_of t)); [reflexivity|].
      destruct (tag_instances ec2 _); [reflexivity|]. apply IH. }
  all: intros r Hr; unfold supported_rule; rewrite Hr;
    destruct (is_instance_rule r); try reflexivity;
    destruct (is_tag_rule r); reflexivity.
Qed.

(** X2.  Rules of a kind that [get_target_count] does not know are passed over:
    the count is what it would be had they not been listed. *)
Theorem unsupported_rules_do_not_count ssm ssm' ec2 rg window_id targets targets' :
  describe_maintenance_window_targets ssm window_id = inr targets ->
  describe_maintenance_window_targets ssm' window_id = inr targets' ->
  Forall2 without_unsupported targets targets' ->
  snd (get_target_count ssm ec2 rg window_id) =
  snd (get_target_count ssm' ec2 rg window_id).
Proof.
  intros Hd Hd' H. rewrite !get_target_count_outcome, Hd, Hd'.
  rewrite (targets_total_without_unsupported ec2 _ _ 0 H). reflexivity.
Qed.

Lemma unsupported_rules_do_not_count_witness :
  snd (get_target_count
         (ssm_with_targets
            [mk_mw_target (Some [mk_rule "WindowTargetIds" ["wt-1"];
                                 mk_rule "InstanceIds" ["i-7"; "i-8"]])])
         one_instance_ec2 empty_rg "mw-1") =
  snd (get_target_count (ssm_with_targets [listed_target]) one_instance_ec2 empty_rg
         "mw-1").
Proof.
  apply (unsupported_rules_do_not_count _ _ _ _ _
           [mk_mw_target (Some [mk_rule "WindowTargetIds" ["wt-1"];
                                mk_rule "InstanceIds" ["i-7"; "i-8"]])]
           [listed_target]).
  - reflexivity.
  - reflexivity.
  - constructor; [reflexivity|constructor].
Defined.

Lemma append_empty_r s : s +:+ "" = s.
Proof.
  induction s as [|c s IH]; [reflexivity|].
  change (String c (s +:+ "") = String c s). f_equal. exact IH.
Qed.

Lemma append_assoc s1 s2 s3 : (s1 +:+ s2) +:+ s3 = s1 +:+ (s2 +:+ s3).
Proof.
  induction s1 as [|c s1 IH]; [reflexivity|].
  change (String c ((s1 +:+ s2) +:+ s3) = String c (s1 +:+ (s2 +:+ s3))).
  f_equal. exact IH.
Qed.

Lemma split_go_without_separator sep s cur :
  str_contains sep s = false -> split_go sep s 0 cur = [cur +:+ s].
Proof.
  revert cur. induction s as [|c s IH]; intros cur H.
  - cbn. rewrite append_empty_r. reflexivity.
  - cbn [str_contains] in H. apply orb_false_iff in H. destruct H as [Hp Hs].
    cbn [split_go]. rewrite Hp, (IH _ Hs), append_assoc. reflexivity.
Qed.

(** X3.  A tag rule whose tag key does not itself contain ["tag:"] is handed to
    EC2 under its own key, with its own values, after the filters gathered
    before it. *)
Theorem tag_rule_becomes_filter rg lc filters r tag_key :
  rule_Key r = "tag:" +:+ tag_key ->
  str_contains "tag:" tag_key = false ->
  rule_step rg (lc, filters) r =
  ([], Ok (lc, filters ++ [mk_filter (rule_Key r) (rule_Values r)])).
Proof.
  intros Hk Hc. unfold rule_step. cbv beta iota zeta. rewrite Hk.
  change (String.eqb ("tag:" +:+ tag_key) "InstanceIds") with false.
  assert (Hp : String.prefix "tag:" ("tag:" +:+ tag_key) = true)
    by (destruct tag_key; reflexivity).
  assert (Hs : str_split "tag:" ("tag:" +:+ tag_key) = [""; tag_key]).
  { unfold str_split. revert Hp.
    destruct ("tag:" +:+ tag_key) as [|c0 s0] eqn:E; [discriminate E|].
    injection E as <- <-. intros Hp. cbn [split_go]. rewrite Hp. f_equal.
    apply (split_go_without_separator "tag:" _ "" Hc). }
  rewrite Hp, Hs. reflexivity.
Qed.

Lemma tag_rule_becomes_filter_witness :
  rule_step empty_rg (mk_locals 3 None, []) (mk_rule "tag:Patch Group" ["prod"; "dev"]) =
  ([], Ok (mk_locals 3 None, [mk_filter "tag:Patch Group" ["prod"; "dev"]])).
Proof.
  apply (tag_rule_becomes_filter empty_rg (mk_locals 3 None) []
           (mk_rule "tag:Patch Group" ["prod"; "dev"]) "Patch Group"); reflexivity.
Defined.

(** X4.  A window without rules counts 0 and this is no failure: the trace ends
    with the INFO record of the count, not with the ERROR record of the
    handler. *)
Theorem empty_targets_count_zero ssm ec2 rg window_id targets :
  describe_maintenance_window_targets ssm window_id = inr targets ->
  Forall (fun t => rules_of t = []) targets ->
  get_target_count ssm ec2 rg window_id =
  ([Log INFO "Resolving target count for MW";
    SsmDescribeMaintenanceWindowTargets window_id;
    Log INFO "Target count for MW"], Ok 0).
Proof.
  intros Hd H. unfold get_target_count, get_target_count_body. rewrite Hd.
  assert (Hloop : forall lc, for_each (mw_target_step ec2 rg) targets lc = ([], Ok lc)).
  { clear Hd.
    induction H as [|t targets Ht _ IH]; intros lc; cbn [for_each]; [reflexivity|].
    unfold mw_target_step at 1. fold (rules_of t). rewrite Ht.
    cbn [for_each ret bind fst snd resolve_tags app]. rewrite IH. reflexivity. }
  cbn. rewrite Hloop. reflexivity.
Qed.

Lemma empty_targets_count_zero_witness :
  get_target_count (ssm_with_targets [mk_mw_target None; mk_mw_target (Some [])])
    one_instance_ec2 empty_rg "mw-1" =
  ([Log INFO "Resolving target count for MW";
    SsmDescribeMaintenanceWindowTargets "mw-1";
    Log INFO "Target count for MW"], Ok 0).
Proof.
  apply (empty_targets_count_zero _ _ _ _
           [mk_mw_target None; mk_mw_target (Some [])]).
  - reflexivity.
  - repeat constructor.
Defined.

Lemma ec2_lookups_app t t' : ec2_lookups (t ++ t') = ec2_lookups t ++ ec2_lookups t'.
Proof. apply omap_app. Qed.

Lemma quiet_ec2_lookups {A} (m : M A) : quiet is_ec2_request m -> ec2_lookups (fst m) = [].
Proof.
  unfold quiet, ec2_lookups. induction (fst m) as [|ev t IH]; [reflexivity|].
  cbn [forallb omap list_omap]. destruct ev; cbn; try exact IH. discriminate.
Qed.

Lemma quiet_for_each_inv {S A} P (I : S -> Prop) (body : S -> A -> M S) l s :
  (forall s x, I s -> quiet P (body s x)) ->
  (forall s x s', I s -> snd (body s x) = Ok s' -> I s') ->
  I s -> quiet P (for_each body l s).
Proof.
  intros Hq Hi. revert s. induction l as [|x l IH]; intros s Hs; cbn [for_each].
  - apply quiet_ret.
  - unfold quiet. rewrite fst_bind, forallb_app. rewrite (Hq s x Hs). cbn [andb].
    destruct (snd (body s x)) as [s'|e|code] eqn:E; try reflexivity.
    apply IH. exact (Hi s x s' Hs E).
Qed.

Lemma rule_step_no_lookup rg st r : quiet is_ec2_request (rule_step rg st r).
Proof.
  destruct st as [lc filters]. unfold rule_step, index, read_local, resolve_group.
  destruct (String.eqb _ _); [auto with quiet|].
  destruct (String.prefix _ _).
  { apply quiet_bind; [destruct (_ !! _); auto with quiet|]. auto with quiet. }
  destruct (String.eqb _ _); [|auto 6 with quiet].
  apply quiet_bind; [destruct (group_name lc); auto with quiet|]. intros _.
  apply quiet_bind; [auto with quiet|]. intros _.
  apply quiet_bind; [|auto with quiet].
  apply quiet_for_each. intros lc' g.
  apply quiet_bind; [auto with quiet|]. intros _.
  apply quiet_bind; [|auto 6 with quiet].
  apply quiet_for_pages. intros n p. unfold count_resource_page.
  apply quiet_for_each. intros n' res. unfold count_resource.
  destruct (String.eqb _ _); auto with quiet.
Qed.

Lemma resolve_tags_lookups ec2 lc filters :
  ec2_lookups (fst (resolve_tags ec2 lc filters)) =
  match filters with
  | [] => []
  | _ :: _ => [filters]
  end.
Proof.
  destruct filters as [|f filters]; [reflexivity|]. cbn [resolve_tags].
  rewrite fst_bind. cbn [emit fst snd]. rewrite ec2_lookups_app.
  rewrite (quiet_ec2_lookups (_ <- for_pages _ _ _ ;; _)).
  - reflexivity.
  - apply quiet_bind; [|auto with quiet].
    apply quiet_for_pages. intros ids p. apply quiet_ret.
Qed.

Lemma targets_loop_lookups ec2 rg targets acc :
  Forall (fun t => existsb is_group_rule (rules_of t) = false) targets ->
  Forall (lookup_succeeds ec2) targets ->
  ec2_lookups (fst (for_each (mw_target_step ec2 rg) targets (mk_locals acc None))) =
  concat (map lookups_of targets).
Proof.
  intros Hg Hl. revert acc.
  induction targets as [|t targets IH]; intros acc; cbn [for_each map concat];
    [reflexivity|].
  inversion Hg as [|? ? Hg1 Hg2]; subst. inversion Hl as [|? ? [n Hn] Hl2]; subst.
  rewrite fst_bind, ec2_lookups_app, mw_target_step_outcome, Hg1, Hn.
  rewrite (IH Hg2 Hl2). f_equal.
  unfold mw_target_step. fold (rules_of t). rewrite fst_bind, ec2_lookups_app.
  rewrite (quiet_ec2_lookups (for_each (rule_step rg) _ _))
    by (apply quiet_for_each; intros; apply rule_step_no_lookup).
  rewrite rule_loop_outcome, Hg1. cbn [fst snd app].
  rewrite resolve_tags_lookups. unfold lookups_of.
  destruct (tag_filters_of (rules_of t)); reflexivity.
Qed.

(** X5.  The tag rules of one MW target go to EC2 together: in a window without
    resource-group rules whose lookups succeed, each MW target with tag
    rules causes one lookup, with all its tag filters in the order of its
    rules, and an MW target without tag rules causes none. *)
Theorem one_lookup_per_tagged_target ssm ec2 rg window_id targets :
  describe_maintenance_window_targets ssm window_id = inr targets ->
  Forall (fun t => existsb is_group_rule (rules_of t) = false) targets ->
  Forall (lookup_succeeds ec2) targets ->
  ec2_lookups (fst (get_target_count ssm ec2 rg window_id)) =
  concat (map lookups_of targets).
Proof.
  intros Hd Hg Hl. unfold get_target_count.
  rewrite fst_bind. cbn [log emit fst snd]. rewrite ec2_lookups_app.
  rewrite fst_try_except, ec2_lookups_app.
  unfold get_target_count_body. rewrite Hd.
  rewrite fst_bind, snd_bind. cbn [request fst snd obind].
  rewrite fst_bind, snd_bind, !ec2_lookups_app, (targets_loop_lookups ec2 rg _ 0 Hg Hl).
  rewrite targets_loop_outcome, (targets_total_sum _ _ _ Hg Hl).
  cbn. rewrite !app_nil_r. reflexivity.
Qed.

Lemma one_lookup_per_tagged_target_witness :
  ec2_lookups (fst (get_target_count (ssm_with_targets [listed_target; two_kinds])
                      counting_ec2 empty_rg "mw-1")) =
  [[mk_filter "tag:Env" ["prod"]; mk_filter "tag:Role" ["web"]]].
Proof.
  apply (one_lookup_per_tagged_target (ssm_with_targets [listed_target; two_kinds])
           counting_ec2 empty_rg "mw-1" [listed_target; two_kinds]).
  - reflexivity.
  - repeat constructor.
  - repeat constructor; eexists; vm_compute; reflexivity.
Defined.

Lemma rule_step_group_unbound rg total0 filters r :
  quiet is_group_request (rule_step rg (mk_locals total0 None, filters) r).
Proof.
  unfold rule_step, index, read_local. cbn [group_name].
  destruct (String.eqb _ _); [auto with quiet|].
  destruct (String.prefix _ _).
  { apply quiet_bind; [destruct (_ !! _); auto with quiet|]. auto with quiet. }
  destruct (String.eqb _ _); [reflexivity|auto 6 with quiet].
Qed.

Lemma rule_step_keeps_unbound rg total0 filters r st :
  snd (rule_step rg (mk_locals total0 None, filters) r) = Ok st ->
  group_name (fst st) = None.
Proof.
  pose proof (rule_loop_outcome rg [r] total0 filters) as H.
  cbn [for_each] in H. rewrite snd_bind in H. intros E. rewrite E in H.
  cbn [obind ret snd] in H.
  destruct (existsb is_group_rule [r]); [discriminate H|].
  injection H as ->. reflexivity.
Qed.

Lemma resolve_tags_no_group ec2 lc filters :
  quiet is_group_request (resolve_tags ec2 lc filters).
Proof.
  destruct filters; cbn [resolve_tags]; [auto with quiet|].
  apply quiet_bind; [auto with quiet|]. intros _.
  apply quiet_bind; [|auto with quiet].
  apply quiet_for_pages. intros ids p. apply quiet_ret.
Qed.

Lemma get_target_count_no_group_request ssm ec2 rg window_id :
  quiet is_group_request (get_target_count ssm ec2 rg window_id).
Proof.
  unfold get_target_count, get_target_count_body.
  apply quiet_bind; [auto with quiet|]. intros _.
  apply quiet_try_except; [|auto with quiet].
  apply quiet_bind; [auto with quiet|]. intros targets.
  apply quiet_bind; [|auto with quiet].
  apply (quiet_for_each_inv _ (fun lc => group_name lc = None)); [| |reflexivity].
  - intros [total0 g] t Hlc. cbn in Hlc. subst g. unfold mw_target_step.
    apply quiet_bind; [|intros st; apply resolve_tags_no_group].
    apply (quiet_for_each_inv _ (fun st => group_name (fst st) = None)); [| |reflexivity].
    + intros [[total1 g] filters] r Hst. cbn in Hst. subst g.
      apply rule_step_group_unbound.
    + intros [[total1 g] filters] r st' Hst. cbn in Hst. subst g.
      apply rule_step_keeps_unbound.
  - intros [total0 g] t lc' Hlc. cbn in Hlc. subst g.
    rewrite mw_target_step_outcome.
    destruct (existsb _ _); [discriminate|].
    destruct (tag_instances _ _); [discriminate|]. intros [= <-]. reflexivity.
Qed.

(** X6.  The resource-groups endpoint is never asked anything, whatever the
    window, and a window that has a resource-group rule in any of its MW
    targets counts 0. *)
Theorem resource_groups_never_resolved ssm ec2 rg window_id :
  calls is_group_request (fst (get_target_count ssm ec2 rg window_id)) = 0
  /\ (forall targets,
        describe_maintenance_window_targets ssm window_id = inr targets ->
        existsb (fun t => existsb is_group_rule (rules_of t)) targets = true ->
        snd (get_target_count ssm ec2 rg window_id) = Ok 0).
Proof.
  split.
  - apply quiet_calls, get_target_count_no_group_request.
  - intros targets. apply group_rule_counts_zero.
Qed.

Lemma resource_groups_never_resolved_witness :
  calls is_group_request
    (fst (get_target_count (ssm_with_targets [listed_target; group_target])
            one_instance_ec2 web_group_rg "mw-1")) = 0
  /\ snd (get_target_count (ssm_with_targets [listed_target; group_target])
            one_instance_ec2 web_group_rg "mw-1") = Ok 0.
Proof.
  destruct (resource_groups_never_resolved (ssm_with_targets [listed_target; group_target])
              one_instance_ec2 web_group_rg "mw-1") as [H1 H2].
  split; [exact H1|]. apply (H2 [listed_target; group_target]); reflexivity.
Defined.

(** ** More on the status resolver *)

Lemma task_step_other json_loads ssm execution_id c t :
  is_patch_task t = false ->
  task_step json_loads ssm execution_id c t =
  ([Log DEBUG "Evaluating task"; Log DEBUG "Skipping non-patching task"], Ok c).
Proof.
  unfold is_patch_task, task_step. intros H. rewrite H. reflexivity.
Qed.

Lemma requests_of_app t t' : requests_of (t ++ t') = requests_of t ++ requests_of t'.
Proof. apply List.filter_app. Qed.

(** X7.  Tasks other than the patch-baseline task count for nothing: the task
    loop ends as it does on the patch-baseline tasks alone, with the same
    counters and after the same requests. *)
Theorem other_tasks_are_skipped json_loads ssm execution_id tasks c :
  snd (for_each (task_step json_loads ssm execution_id) tasks c) =
  snd (for_each (task_step json_loads ssm execution_id)
         (List.filter is_patch_task tasks) c)
  /\ requests_of (fst (for_each (task_step json_loads ssm execution_id) tasks c)) =
     requests_of (fst (for_each (task_step json_loads ssm execution_id)
                         (List.filter is_patch_task tasks) c)).
Proof.
  revert c. induction tasks as [|t tasks IH]; intros c; [split; reflexivity|].
  cbn [for_each List.filter]. destruct (is_patch_task t) eqn:Ht.
  - cbn [for_each]. rewrite !snd_bind, !fst_bind, !requests_of_app.
    destruct (snd (task_step json_loads ssm execution_id c t)) as [c'|e|code];
      cbn [obind]; [|split; reflexivity..].
    destruct (IH c') as [IH1 IH2]. rewrite IH1, IH2. split; reflexivity.
  - rewrite (task_step_other _ _ _ _ _ Ht). rewrite snd_bind, fst_bind.
    cbn [fst snd obind]. rewrite requests_of_app. exact (IH c).
Qed.

(** X8.  An Install invocation without a command id, or with an empty one, is
    passed over with a warning: the counters stay and no command result is
    asked for. *)
Theorem install_without_command_is_skipped json_loads ssm c inv operation :
  snd (read_operation json_loads inv) = Ok operation ->
  snd (py_in "Install" operation) = Ok true ->
  inv_ExecutionId inv = None \/ inv_ExecutionId inv = Some "" ->
  snd (invocation_step json_loads ssm c inv) = Ok c
  /\ forallb is_log (fst (invocation_step json_loads ssm c inv)) = true
  /\ last (fst (invocation_step json_loads ssm c inv)) =
     Some (Log WARNING "No CommandId found for Install operation").
Proof.
  intros Hop Hin Hid.
  destruct (read_operation json_loads inv) as [t1 o1] eqn:E1. cbn [snd] in Hop. subst o1.
  pose proof (read_operation_logs json_loads inv) as Hlog. rewrite E1 in Hlog.
  cbn [fst] in Hlog.
  destruct (py_in "Install" operation) as [t2 o2] eqn:E2. cbn [snd] in Hin. subst o2.
  assert (Ht2 : t2 = []) by (destruct operation; inversion E2; reflexivity). subst t2.
  assert (Hstep :
    invocation_step json_loads ssm c inv =
    (t1 ++ [Log DEBUG "operation detected";
            Log WARNING "No CommandId found for Install operation"], Ok c)).
  { unfold invocation_step.
    destruct Hid as [Hid|Hid]; rewrite Hid, E1; cbn [bind log emit]; rewrite E2;
      reflexivity. }
  rewrite Hstep. cbn [fst snd].
  split; [reflexivity|]. split.
  - rewrite forallb_app, Hlog. reflexivity.
  - rewrite (last_app t1). reflexivity.
Qed.

Lemma install_without_command_is_skipped_witness :
  snd (invocation_step example_json_loads example_ssm (4, 2)
         (mk_invocation (Some "{install}") None)) = Ok (4, 2)
  /\ forallb is_log
       (fst (invocation_step example_json_loads example_ssm (4, 2)
               (mk_invocation (Some "{install}") None))) = true
  /\ last (fst (invocation_step example_json_loads example_ssm (4, 2)
                  (mk_invocation (Some "{install}") None))) =
     Some (Log WARNING "No CommandId found for Install operation").
Proof.
  apply (install_without_command_is_skipped example_json_loads example_ssm (4, 2)
           (mk_invocation (Some "{install}") None) (JArray [JString "Install"])).
  - reflexivity.
  - reflexivity.
  - left. reflexivity.
Defined.

(** X9.  A payload that parses, but not to an object, is not a parse failure:
    the [AttributeError] of [.get] leaves the invocation loop. *)
Theorem non_object_payload_raises json_loads ssm c inv raw parsed :
  inv_Parameters inv = Some raw -> raw <> "" ->
  json_loads raw = Some parsed ->
  (forall members, parsed <> JObject members) ->
  exists msg,
    invocation_step json_loads ssm c inv = ([], Raise (AttributeError msg)).
Proof.
  intros Hraw Hne Hparse Hobj. unfold invocation_step, read_operation. rewrite Hraw.
  cbn [default from_option id].
  destruct (String.eqb raw "") eqn:He; [apply String.eqb_eq in He; done|].
  rewrite Hparse.
  destruct parsed; try (eexists; reflexivity).
  exfalso. eapply Hobj. reflexivity.
Qed.

Lemma non_object_payload_raises_witness :
  exists msg,
    invocation_step (fun _ => Some (JArray [JString "Install"])) example_ssm (4, 2)
      (mk_invocation (Some "[Install]") (Some "c-1")) =
    ([], Raise (AttributeError msg)).
Proof.
  apply (non_object_payload_raises (fun _ => Some (JArray [JString "Install"]))
           example_ssm (4, 2) (mk_invocation (Some "[Install]") (Some "c-1"))
           "[Install]" (JArray [JString "Install"])).
  - reflexivity.
  - intros E. discriminate E.
  - reflexivity.
  - intros members E. discriminate E.
Defined.

Lemma classes_are_disjoint (rs : list command_invocation) :
  length (List.filter is_success rs) + length (List.filter is_failure rs) <= length rs.
Proof.
  induction rs as [|r rs IH]; cbn [List.filter length]; [lia|].
  unfold is_success at 1, is_failure at 1.
  destruct (cmd_Status r) as [s|]; [|cbn; lia].
  destruct (String.eqb s "Success") eqn:Hs.
  - apply String.eqb_eq in Hs. subst s. cbn. lia.
  - destruct (existsb _ _); cbn; lia.
Qed.

(** X10.  No command result is counted twice: the two counters of an execution add
    up to at most the number of results examined. *)
Theorem counters_bounded_by_results json_loads ssm execution_id success failure :
  snd (tally_execution json_loads ssm execution_id) = Ok (success, failure) ->
  exists rs,
    examined_results json_loads ssm execution_id = Ok rs
    /\ success + failure <= length rs.
Proof.
  rewrite tally_execution_tallies.
  destruct (examined_results json_loads ssm execution_id) as [rs|e|code];
    cbn [obind]; try discriminate.
  intros [= <- <-]. exists rs. split; [reflexivity|apply classes_are_disjoint].
Qed.

Lemma counters_bounded_by_results_witness :
  exists rs,
    examined_results example_json_loads example_ssm "e-new" = Ok rs
    /\ 1 + 1 <= length rs.
Proof.
  apply (counters_bounded_by_results example_json_loads example_ssm "e-new" 1 1).
  vm_compute. reflexivity.
Defined.

(** ** More on the post-patch loop *)

Lemma assume_role_outcome cloud account_id role_name region :
  snd (assume_role cloud account_id role_name region) =
  match sts_assume_role cloud (role_arn_of account_id role_name) "MWCheckSession" with
  | inr creds => Ok (mk_session creds region)
  | inl e => Raise e
  end.
Proof.
  unfold assume_role, role_arn_of.
  destruct (sts_assume_role cloud _ _); reflexivity.
Qed.

Lemma must_assume_false c account_id role_name region :
  must_assume c account_id role_name region = false ->
  (exists s, cached_session c = Some s)
  /\ cached_account_id c = Some account_id
  /\ cached_role_name c = Some role_name
  /\ cached_region c = Some region.
Proof.
  unfold must_assume. intros H.
  repeat (apply orb_false_iff in H; destruct H as [H ?]).
  repeat match goal with
         | E : negb _ = false |- _ => apply negb_false_iff, bool_decide_eq_true_1 in E
         end.
  apply bool_decide_eq_false_1 in H.
  destruct (cached_session c) as [s|]; [eauto|done].
Qed.

Lemma post_patch_row_step_genuine json_loads cloud c rows row st :
  cache_is_genuine cloud c ->
  snd (post_patch_row_step json_loads cloud (c, rows) row) = Ok st ->
  cache_is_genuine cloud (fst st)
  /\ (exists creds,
        sts_assume_role cloud (role_arn_of (csv_AccountId row) (csv_RoleName row))
          "MWCheckSession" = inr creds
        /\ cached_session (fst st) = Some (mk_session creds (csv_Region row)))
  /\ exists sf,
       uncached_counts json_loads cloud row = Ok (Some sf)
       /\ snd st = rows ++ [post_row_of row sf].
Proof.
  intros Hc. unfold post_patch_row_step. cbn [fst snd].
  set (rest := fun c' : cache => bind (the_session c') _).
  assert (Hrest : forall c' s st',
            cached_session c' = Some s -> snd (rest c') = Ok st' ->
            fst st' = c'
            /\ exists sf,
                 snd (get_patch_status_counts json_loads (client_ssm cloud s)
                        (csv_MaintenanceWindowId row)) = Ok (Some sf)
                 /\ snd st' = rows ++ [post_row_of row sf]).
  { intros c' s st' Hs. unfold rest, the_session. rewrite Hs, snd_bind.
    cbn [ret snd obind]. rewrite snd_bind.
    destruct (snd (get_patch_status_counts _ _ _)) as [[sf|]|e|code]; cbn [obind];
      try discriminate.
    rewrite snd_bind. cbn. intros [= <-]. split; [reflexivity|]. eauto. }
  clearbody rest. rewrite snd_bind.
  destruct (must_assume c _ _ _) eqn:Hm.
  - rewrite snd_bind, assume_role_outcome. unfold uncached_counts.
    destruct (sts_assume_role cloud _ _) as [e|creds] eqn:Hsts; cbn [obind];
      [discriminate|].
    cbn [ret snd obind]. intros H.
    apply Hrest with (s := mk_session creds (csv_Region row)) in H; [|reflexivity].
    destruct H as [Hst Hsf]. rewrite Hst. split; [cbn; eauto 10|].
    split; [eauto|exact Hsf].
  - cbn [ret snd obind]. intros H.
    destruct (must_assume_false _ _ _ _ Hm) as ([s Hs] & Ha & Hr & Hg).
    destruct (Hrest _ _ _ Hs H) as [Hst (sf & Hsf1 & Hsf2)].
    rewrite Hst. split; [exact Hc|].
    unfold cache_is_genuine in Hc. rewrite Hs in Hc.
    destruct Hc as (a & r & g & creds & Ha' & Hr' & Hg' & Hsts & ->).
    assert (a = csv_AccountId row) as -> by congruence.
    assert (r = csv_RoleName row) as -> by congruence.
    assert (g = csv_Region row) as -> by congruence.
    split; [eauto|].
    exists sf. split; [|exact Hsf2].
    unfold uncached_counts. rewrite Hsts. exact Hsf1.
Qed.

Lemma post_patch_loop_rows json_loads cloud l c rows st :
  cache_is_genuine cloud c ->
  snd (for_each (post_patch_row_step json_loads cloud) l (c, rows)) = Ok st ->
  exists out,
    snd st = rows ++ out
    /\ Forall2 (fun row p => exists sf,
                  uncached_counts json_loads cloud row = Ok (Some sf)
                  /\ p = post_row_of row sf) l out.
Proof.
  revert c rows. induction l as [|row l IH]; intros c rows Hc; cbn [for_each].
  - cbn. intros [= <-]. exists []. rewrite app_nil_r. split; [reflexivity|constructor].
  - rewrite snd_bind.
    destruct (snd (post_patch_row_step json_loads cloud (c, rows) row)) as [st1|e|code] eqn:E;
      cbn [obind]; try discriminate.
    intros H.
    destruct (post_patch_row_step_genuine _ _ _ _ _ _ Hc E) as (Hc1 & _ & sf & Hsf & Hrows).
    destruct st1 as [c1 rows1]. cbn [fst snd] in *. subst rows1.
    destruct (IH c1 _ Hc1 H) as (out & Hout & Hall).
    exists (post_row_of row sf :: out). split.
    + rewrite Hout, <- app_assoc. reflexivity.
    + constructor; [eauto|exact Hall].
Qed.

(** X11.  The cache changes nothing but the number of calls: when the loop gets
    through its rows, the row written for each pre-patch row carries the
    counts that the lookup gives under a session assumed for that row's own
    account, role and region. *)
Theorem cached_sessions_are_transparent json_loads cloud pre_patch_rows st :
  snd (post_patch_loop json_loads cloud pre_patch_rows) = Ok st ->
  Forall2 (fun row p => exists sf,
             uncached_counts json_loads cloud row = Ok (Some sf)
             /\ p = post_row_of row sf) pre_patch_rows (snd st).
Proof.
  intros H. unfold post_patch_loop in H.
  destruct (post_patch_loop_rows json_loads cloud pre_patch_rows empty_cache [] st I H)
    as (out & Hout & Hall).
  rewrite Hout. exact Hall.
Qed.

Lemma cached_sessions_are_transparent_witness :
  Forall2 (fun row p => exists sf,
             uncached_counts example_json_loads example_cloud row = Ok (Some sf)
             /\ p = post_row_of row sf) example_rows
    (map (fun r => post_row_of r (1, 1)) example_rows).
Proof.
  apply (cached_sessions_are_transparent example_json_loads example_cloud example_rows
           (mk_cache (Some (mk_session (mk_credentials "AKIA" "secret" "token")
                              "us-east-1"))
              (Some "111") (Some "PatchRole") (Some "us-east-1"),
            map (fun r => post_row_of r (1, 1)) example_rows)).
  vm_compute. reflexivity.
Defined.

(** X12.  The report is the pre-patch report with two more columns: when the loop
    gets through its rows, it gives one row per pre-patch row, in the same
    order, with the six pre-patch columns unchanged. *)
Theorem post_patch_rows_extend_pre_patch_rows json_loads cloud pre_patch_rows st :
  snd (post_patch_loop json_loads cloud pre_patch_rows) = Ok st ->
  map pre_row_of (snd st) = pre_patch_rows.
Proof.
  intros H. pose proof (Hrows := post_patch_loop_rows
    json_loads cloud pre_patch_rows empty_cache [] st I H).
  destruct Hrows as (out & Hout & Hall).
  rewrite Hout. cbn [app]. clear Hout H.
  induction Hall as [|row p l out (sf & _ & ->) _ IH]; cbn [map]; [reflexivity|].
  rewrite IH. destruct row. reflexivity.
Qed.

Lemma post_patch_rows_extend_pre_patch_rows_witness :
  map pre_row_of (map (fun r => post_row_of r (1, 1)) example_rows) = example_rows.
Proof.
  apply (post_patch_rows_extend_pre_patch_rows example_json_loads example_cloud
           example_rows
           (mk_cache (Some (mk_session (mk_credentials "AKIA" "secret" "token")
                              "us-east-1"))
              (Some "111") (Some "PatchRole") (Some "us-east-1"),
            map (fun r => post_row_of r (1, 1)) example_rows)).
  vm_compute. reflexivity.
Defined.

(** ** The post-patch phase as a whole *)

Lemma load_shared_account_outcome store csv_file :
  snd (load_shared_account store csv_file) =
  match shared_account_file store csv_file with
  | inr a => Ok a
  | inl e => Raise e
  end.
Proof.
  unfold load_shared_account. destruct (shared_account_file store csv_file); reflexivity.
Qed.

Lemma read_csv_from_s3_outcome store s3 bucket key :
  snd (read_csv_from_s3 store s3 bucket key) =
  match s3_get_csv store s3 bucket key with
  | inr rows => Ok rows
  | inl e => Raise e
  end.
Proof.
  unfold read_csv_from_s3. destruct (s3_get_csv store s3 bucket key); reflexivity.
Qed.

Lemma write_csv_to_s3_outcome store s3 bucket key row rows :
  snd (write_csv_to_s3 store s3 bucket key (row :: rows)) =
  match s3_put_csv store s3 bucket key (row :: rows) with
  | inr _ => Ok tt
  | inl e => Raise e
  end.
Proof.
  unfold write_csv_to_s3. cbn [index lookup list_lookup].
  destruct (s3_put_csv store s3 bucket key (row :: rows)); reflexivity.
Qed.

Lemma send_email_ses_outcome store s subject rows :
  snd (send_email_ses store s subject rows) =
  match ses_send store s subject rows with
  | inr _ => Ok tt
  | inl e => Raise e
  end.
Proof.
  unfold send_email_ses. destruct (ses_send store s subject rows); reflexivity.
Qed.

Lemma post_patch_loop_last json_loads cloud l row c rows st :
  cache_is_genuine cloud c ->
  last l = Some row ->
  snd (for_each (post_patch_row_step json_loads cloud) l (c, rows)) = Ok st ->
  exists creds,
    sts_assume_role cloud (role_arn_of (csv_AccountId row) (csv_RoleName row))
      "MWCheckSession" = inr creds
    /\ cached_session (fst st) = Some (mk_session creds (csv_Region row)).
Proof.
  revert c rows. induction l as [|r1 l IH]; intros c rows Hc Hlast; [discriminate|].
  cbn [for_each]. rewrite snd_bind.
  destruct (snd (post_patch_row_step json_loads cloud (c, rows) r1)) as [st1|e|code] eqn:E;
    cbn [obind]; try discriminate.
  destruct (post_patch_row_step_genuine _ _ _ _ _ _ Hc E) as (Hc1 & Hs & _).
  destruct st1 as [c1 rows1]. cbn [fst] in *.
  destruct l as [|r2 l].
  - cbn in Hlast. injection Hlast as <-. cbn. intros [= <-]. exact Hs.
  - apply IH; [exact Hc1|exact Hlast].
Qed.

(** X13.  With no row in the pre-patch report the phase stops with exit status 0
    after reading it: nothing is written to S3 and no mail is sent. *)
Theorem empty_report_skips_notification json_loads cloud store shared creds :
  shared_account_file store "email_account.csv" = inr shared ->
  sts_assume_role cloud (role_arn_of (fst (fst shared)) (snd (fst shared)))
    "MWCheckSession" = inr creds ->
  s3_get_csv store (mk_session creds (snd shared)) INPUT_BUCKET PRE_PATCH_KEY = inr [] ->
  snd (post_patch_function json_loads cloud store) = Exit 0
  /\ calls is_put_or_send (fst (post_patch_function json_loads cloud store)) = 0.
Proof.
  intros Hshared Hsts Hget.
  unfold post_patch_function, post_patch_function_body, load_shared_account,
    assume_role, read_csv_from_s3.
  unfold role_arn_of in Hsts.
  rewrite Hshared. cbn [log emit request bind ret try_except app fst snd].
  rewrite Hsts. cbn [log emit request bind ret try_except app fst snd].
  rewrite Hget. cbn. split; reflexivity.
Qed.

Lemma empty_report_skips_notification_witness :
  snd (post_patch_function example_json_loads example_cloud (example_store [])) = Exit 0
  /\ calls is_put_or_send
       (fst (post_patch_function example_json_loads example_cloud (example_store []))) = 0.
Proof.
  apply (empty_report_skips_notification example_json_loads example_cloud
           (example_store []) ("999", "MailRole", "us-east-1")
           (mk_credentials "AKIA" "secret" "token")); reflexivity.
Defined.

(** X14.  The report is put to S3 with the session of the last pre-patch row, and
    mailed with the shared account's: when the loop gets through the rows,
    the phase ends normally exactly if the put under the last row's session
    and the send under the shared account's session both succeed, and with
    exit status 1 otherwise. *)
Theorem report_is_put_with_last_row_session json_loads cloud store shared creds
    pre_patch_rows st row row_creds :
  shared_account_file store "email_account.csv" = inr shared ->
  sts_assume_role cloud (role_arn_of (fst (fst shared)) (snd (fst shared)))
    "MWCheckSession" = inr creds ->
  s3_get_csv store (mk_session creds (snd shared)) INPUT_BUCKET PRE_PATCH_KEY
    = inr pre_patch_rows ->
  snd (post_patch_loop json_loads cloud pre_patch_rows) = Ok st ->
  last pre_patch_rows = Some row ->
  sts_assume_role cloud (role_arn_of (csv_AccountId row) (csv_RoleName row))
    "MWCheckSession" = inr row_creds ->
  snd (post_patch_function json_loads cloud store) =
  match s3_put_csv store (mk_session row_creds (csv_Region row)) INPUT_BUCKET
          POST_PATCH_KEY (snd st) with
  | inl _ => Exit 1
  | inr _ =>
      match ses_send store (mk_session creds (snd shared)) "Post Patch Status Report"
              (snd st) with
      | inl _ => Exit 1
      | inr _ => Ok tt
      end
  end.
Proof.
  intros Hshared Hsts Hget Hloop Hlast Hrow.
  destruct (post_patch_loop_last json_loads cloud pre_patch_rows row empty_cache [] st
              I Hlast Hloop) as (creds' & Hrow' & Hsession).
  rewrite Hrow in Hrow'. injection Hrow' as <-.
  destruct (post_patch_loop_rows json_loads cloud pre_patch_rows empty_cache [] st I Hloop)
    as (out & Hout & Hall).
  cbn [app] in Hout.
  assert (Hne : exists p ps, snd st = p :: ps).
  { rewrite Hout. destruct Hall as [|? p ? ps]; [discriminate Hlast|eauto]. }
  destruct Hne as (p & ps & Hps).
  unfold post_patch_function. rewrite snd_bind. cbn [log emit snd obind].
  rewrite snd_try_except. unfold post_patch_function_body.
  rewrite snd_bind, load_shared_account_outcome, Hshared. cbn [obind].
  rewrite snd_bind, assume_role_outcome, Hsts. cbn [obind].
  rewrite snd_bind, read_csv_from_s3_outcome, Hget. cbn [obind].
  destruct pre_patch_rows as [|r0 rs]; [discriminate Hlast|].
  rewrite snd_bind, Hloop. cbn [obind].
  rewrite snd_bind.
  assert (Hsummary : forall l : list post_patch_row,
            snd (for_each (fun (_ : unit) (_ : post_patch_row) => log INFO "Summary row")
                   l tt) = Ok tt).
  { induction l as [|x l IHl]; [reflexivity|].
    cbn [for_each]. rewrite snd_bind. cbn [log emit snd obind]. exact IHl. }
  rewrite Hsummary. cbn [obind].
  rewrite snd_bind, load_shared_account_outcome, Hshared. cbn [obind].
  rewrite snd_bind, assume_role_outcome, Hsts. cbn [obind].
  rewrite snd_bind. unfold the_session. rewrite Hsession. cbn [ret snd obind].
  rewrite snd_bind, Hps, write_csv_to_s3_outcome.
  destruct (s3_put_csv store _ _ _ _) as [e|[]]; cbn [obind]; [reflexivity|].
  rewrite snd_bind, send_email_ses_outcome.
  destruct (ses_send store _ _ _) as [e|[]]; reflexivity.
Qed.

Lemma report_is_put_with_last_row_session_witness :
  snd (post_patch_function example_json_loads role_named_cloud
         (shared_bucket_store example_rows)) = Exit 1.
Proof.
  apply (report_is_put_with_last_row_session example_json_loads role_named_cloud
           (shared_bucket_store example_rows) ("999", "MailRole", "us-east-1")
           (mk_credentials "arn:aws:iam::999:role/MailRole" "secret" "token")
           example_rows
           (mk_cache (Some (mk_session
                              (mk_credentials "arn:aws:iam::111:role/PatchRole"
                                 "secret" "token") "us-east-1"))
              (Some "111") (Some "PatchRole") (Some "us-east-1"),
            map (fun r => post_row_of r (1, 1)) example_rows)
           (row_of "111" "mw-4")
           (mk_credentials "arn:aws:iam::111:role/PatchRole" "secret" "token"));
    vm_compute; reflexivity.
Defined.

(** ** The pre-patch phase *)

Lemma window_step_outcome fromisoformat now_utc ssm ec2 rg account_id region role_name
    rows mw :
  snd (window_step fromisoformat now_utc ssm ec2 rg account_id region role_name rows mw) =
  Ok (if scheduled_today fromisoformat now_utc mw
      then rows ++ [row_of_window ssm ec2 rg account_id region role_name mw]
      else rows).
Proof.
  unfold window_step, scheduled_today, row_of_window.
  rewrite snd_bind. cbn [log emit snd obind].
  destruct (NextExecutionTime mw) as [t|]; [|reflexivity].
  destruct (String.prefix "mmpatching" (default "" (window_Name mw))) eqn:Hp;
    cbn [negb andb]; [|reflexivity].
  rewrite snd_bind.
  destruct (runs_today_returns fromisoformat now_utc t) as [b Hb]. rewrite Hb.
  cbn [obind]. destruct b; [|reflexivity].
  rewrite snd_bind, get_target_count_outcome. cbn [obind].
  unfold window_name.
  destruct (window_Name mw) as [name|]; [reflexivity|].
  cbn in Hp. discriminate Hp.
Qed.

Lemma window_loop_outcome fromisoformat now_utc ssm ec2 rg
    account_id region role_name windows rows :
  snd (for_each (window_step fromisoformat now_utc ssm ec2 rg account_id region role_name)
         windows rows) =
  Ok (rows ++ map (row_of_window ssm ec2 rg account_id region role_name)
                (List.filter (scheduled_today fromisoformat now_utc) windows)).
Proof.
  revert rows. induction windows as [|mw windows IH]; intros rows; cbn [for_each].
  - cbn. rewrite app_nil_r. reflexivity.
  - rewrite snd_bind, window_step_outcome. cbn [obind List.filter].
    rewrite IH. destruct (scheduled_today fromisoformat now_utc mw); [|reflexivity].
    cbn [map]. rewrite <- app_assoc. reflexivity.
Qed.


Lemma pre_patch_row_step_outcome fromisoformat now_utc cloud s3 rows row :
  snd (PrePatch.pre_patch_row_step fromisoformat now_utc cloud (s3, rows) row) =
  match account_windows cloud row with
  | inr (s, _) => Ok (Some s, rows ++ account_rows fromisoformat now_utc cloud row)
  | inl e => Raise e
  end.
Proof.
  unfold PrePatch.pre_patch_row_step, account_rows, account_windows.
  destruct row as [[account_id role_name] region]. cbn [fst snd].
  rewrite snd_bind. cbn [log emit snd obind].
  rewrite snd_bind, assume_role_outcome.
  destruct (sts_assume_role cloud _ _) as [e|creds]; cbn [obind]; [reflexivity|].
  rewrite snd_bind.
  destruct (describe_maintenance_windows _) as [e|windows]; cbn [request snd obind];
    [reflexivity|].
  rewrite snd_bind, window_loop_outcome. reflexivity.
Qed.


Lemma account_loop_fails fromisoformat now_utc cloud accounts st :
  forallb (account_answers cloud) accounts = false ->
  exists e,
    snd (for_each (PrePatch.pre_patch_row_step fromisoformat now_utc cloud) accounts st)
    = Raise e.
Proof.
  revert st. induction accounts as [|row accounts IH]; intros [s3 rows] Hall;
    [discriminate Hall|].
  cbn [for_each forallb] in *. rewrite snd_bind, pre_patch_row_step_outcome.
  unfold account_answers in Hall at 1.
  destruct (account_windows cloud row) as [e|[s windows]]; cbn [obind]; [eauto|].
  cbn [andb] in Hall. apply IH, Hall.
Qed.

Lemma rule_step_no_report rg st r : quiet is_put_or_send (rule_step rg st r).
Proof.
  destruct st as [lc filters]. unfold rule_step, index, read_local, resolve_group.
  destruct (String.eqb _ _); [auto with quiet|].
  destruct (String.prefix _ _).
  { apply quiet_bind; [destruct (_ !! _); auto with quiet|]. auto with quiet. }
  destruct (String.eqb _ _); [|auto 6 with quiet].
  apply quiet_bind; [destruct (group_name lc); auto with quiet|]. intros _.
  apply quiet_bind; [auto with quiet|]. intros _.
  apply quiet_bind; [|auto with quiet].
  apply quiet_for_each. intros lc' g.
  apply quiet_bind; [auto with quiet|]. intros _.
  apply quiet_bind; [|auto 6 with quiet].
  apply quiet_for_pages. intros n p. unfold count_resource_page.
  apply quiet_for_each. intros n' res. unfold count_resource.
  destruct (String.eqb _ _); auto with quiet.
Qed.

Lemma get_target_count_no_report ssm ec2 rg window_id :
  quiet is_put_or_send (get_target_count ssm ec2 rg window_id).
Proof.
  unfold get_target_count, get_target_count_body.
  apply quiet_bind; [auto with quiet|]. intros _.
  apply quiet_try_except; [|auto with quiet].
  apply quiet_bind; [auto with quiet|]. intros targets.
  apply quiet_bind; [|auto with quiet].
  apply quiet_for_each. intros lc t. unfold mw_target_step.
  apply quiet_bind; [apply quiet_for_each; intros; apply rule_step_no_report|].
  intros st. destruct (snd st) as [|f filters]; cbn [resolve_tags]; [auto with quiet|].
  apply quiet_bind; [auto with quiet|]. intros _.
  apply quiet_bind; [|auto with quiet].
  apply quiet_for_pages. intros ids p. apply quiet_ret.
Qed.

Lemma runs_today_no_report fromisoformat now_utc t :
  quiet is_put_or_send (runs_today fromisoformat now_utc t).
Proof.
  unfold quiet. pose proof (runs_today_logs fromisoformat now_utc t) as H.
  induction (fst (runs_today fromisoformat now_utc t)) as [|ev l IH]; [reflexivity|].
  cbn [forallb] in *. apply andb_true_iff in H as [H1 H2].
  rewrite (IH H2), andb_true_r. destruct ev; try discriminate H1; reflexivity.
Qed.

Lemma assume_role_no_report cloud account_id role_name region :
  quiet is_put_or_send (assume_role cloud account_id role_name region).
Proof. unfold assume_role. auto 8 with quiet. Qed.

Lemma account_loop_no_report fromisoformat now_utc cloud accounts st :
  quiet is_put_or_send
    (for_each (PrePatch.pre_patch_row_step fromisoformat now_utc cloud) accounts st).
Proof.
  apply quiet_for_each. intros st' [[account_id role_name] region].
  unfold PrePatch.pre_patch_row_step.
  apply quiet_bind; [auto with quiet|]. intros _.
  apply quiet_bind; [apply assume_role_no_report|]. intros session.
  apply quiet_bind; [auto with quiet|]. intros windows.
  apply quiet_bind; [|auto with quiet].
  apply quiet_for_each. intros rows mw. unfold window_step.
  apply quiet_bind; [auto with quiet|]. intros _.
  destruct (NextExecutionTime mw) as [t|]; [|auto with quiet].
  destruct (negb _); [auto with quiet|].
  apply quiet_bind; [apply runs_today_no_report|]. intros today.
  destruct today; [|auto with quiet].
  apply quiet_bind; [apply get_target_count_no_report|]. intros n.
  apply quiet_bind; [unfold window_name; destruct (window_Name mw); auto with quiet|].
  auto with quiet.
Qed.

Lemma read_csv_local_outcome store file_name :
  snd (PrePatch.read_csv_local store file_name) =
  match accounts_file store file_name with
  | inr rows => Ok rows
  | inl e => Raise e
  end.
Proof.
  unfold PrePatch.read_csv_local. destruct (accounts_file store file_name); reflexivity.
Qed.

Lemma read_csv_local_no_report store file_name :
  quiet is_put_or_send (PrePatch.read_csv_local store file_name).
Proof. unfold PrePatch.read_csv_local. auto 8 with quiet. Qed.

(** X16.  One account that cannot be entered, or whose windows cannot be listed,
    ends the whole pre-patch phase with exit status 1: no report is written
    or mailed for the other accounts either. *)
Theorem failing_account_ends_pre_patch fromisoformat now_utc cloud store accounts :
  accounts_file store "accounts.csv" = inr accounts ->
  forallb (account_answers cloud) accounts = false ->
  snd (PrePatch.pre_patch_notification fromisoformat now_utc cloud store) = Exit 1
  /\ calls is_put_or_send
       (fst (PrePatch.pre_patch_notification fromisoformat now_utc cloud store)) = 0.
Proof.
  intros Hfile Hfail.
  destruct (account_loop_fails fromisoformat now_utc cloud accounts (None, []) Hfail)
    as [e He].
  assert (Hbody : snd (PrePatch.pre_patch_notification_body fromisoformat now_utc cloud
                         store) = Raise e).
  { unfold PrePatch.pre_patch_notification_body.
    rewrite snd_bind, read_csv_local_outcome, Hfile. cbn [obind].
    rewrite snd_bind, He. reflexivity. }
  split.
  - unfold PrePatch.pre_patch_notification. rewrite snd_bind. cbn [log emit snd obind].
    rewrite snd_try_except, Hbody. reflexivity.
  - apply quiet_calls. unfold PrePatch.pre_patch_notification.
    apply quiet_bind; [auto with quiet|]. intros _.
    apply quiet_try_except; [|intros; reflexivity].
    unfold quiet. unfold PrePatch.pre_patch_notification_body.
    rewrite fst_bind, forallb_app, (read_csv_local_no_report store "accounts.csv").
    rewrite read_csv_local_outcome, Hfile. cbn [andb].
    rewrite fst_bind, forallb_app, (account_loop_no_report _ _ _ _ _), He.
    reflexivity.
Qed.

Lemma failing_account_ends_pre_patch_witness :
  snd (PrePatch.pre_patch_notification example_fromisoformat example_now patching_cloud
         (example_pre_store [("111", "PatchRole", "us-east-1");
                             ("222", "PatchRole", "us-east-1")])) = Exit 1
  /\ calls is_put_or_send
       (fst (PrePatch.pre_patch_notification example_fromisoformat example_now
               patching_cloud
               (example_pre_store [("111", "PatchRole", "us-east-1");
                                   ("222", "PatchRole", "us-east-1")]))) = 0.
Proof.
  apply (failing_account_ends_pre_patch example_fromisoformat example_now patching_cloud
           (example_pre_store [("111", "PatchRole", "us-east-1");
                               ("222", "PatchRole", "us-east-1")])
           [("111", "PatchRole", "us-east-1"); ("222", "PatchRole", "us-east-1")]);
    reflexivity.
Defined.







